(** * Session lifecycle of the Puppeteer browser server and its MCP bridge

    A shallow embedding of the session registry of [browser-server.js]
    (the Express server that owns the [sessions] map) and of the tool
    handlers of [index.js] (the MCP bridge that talks to it through
    [browserServerRequest]).

    - The registry [sessions] is a JavaScript [Map] keyed by session id; it is
      a [gmap string SessionData].  [Map] iterates in insertion order while
      [map_to_list] has an order of its own; no statement below depends on
      the order in which a sweep visits the sessions.
    - A JavaScript exception is [Throw msg] where [msg] is [error.message];
      [try { .. } catch (e) { .. }] is [try_catch].
    - Everything the outside world answers during one request (Puppeteer,
      the clock, the uuid generator) is collected in a record [Env].
    - Console output, calls that close pages and browsers, and updates of
      the map are recorded in an event trace, so that the order of effects
      can be stated.
    - A run takes one handler or timer callback at a time to its end.  A
      handler that is overtaken at an [await] is treated where a statement
      needs it: [createSession] is cut at the await of the launch, and the
      sweep at the await of [browser.close]. *)

From Stdlib Require Import ZArith Lia PrimFloat.
From stdpp Require Import base option list strings gmap fin_maps pretty.

Open Scope string_scope.
Open Scope nat_scope.
Open Scope list_scope.

(** ** Values *)

Definition Browser := nat.
Definition Page := nat.
Definition Metadata := list (string * string).

(** The outcome of an awaited promise or of a call that may throw. *)
Inductive Res (A : Type) : Type :=
| Ok (a : A)
| Throw (msg : string).
Arguments Ok {A} a.
Arguments Throw {A} msg.

Record Config := {
  PORT : nat;
  MAX_SESSIONS : nat;
  SESSION_TIMEOUT_MS : Z;
  MAX_PAGES_PER_SESSION : nat;
  CLEANUP_INTERVAL_MS : Z;
}.

Definition CONFIG : Config := {|
  PORT := 3000;
  MAX_SESSIONS := 5;
  SESSION_TIMEOUT_MS := 5 * 60 * 1000;
  MAX_PAGES_PER_SESSION := 10;
  CLEANUP_INTERVAL_MS := 60 * 1000;
|}.

Record SessionData := {
  sess_id : string;
  browser : Browser;
  pages : list Page;
  lastAccessed : Z;
  currentUrl : option string;
  metadata : Metadata;
}.

Definition set_lastAccessed (t : Z) (s : SessionData) : SessionData :=
  {| sess_id := sess_id s; browser := browser s; pages := pages s;
     lastAccessed := t; currentUrl := currentUrl s; metadata := metadata s |}.

Definition push_page (p : Page) (s : SessionData) : SessionData :=
  {| sess_id := sess_id s; browser := browser s; pages := pages s ++ [p];
     lastAccessed := lastAccessed s; currentUrl := currentUrl s;
     metadata := metadata s |}.

Definition set_currentUrl (u : option string) (s : SessionData) : SessionData :=
  {| sess_id := sess_id s; browser := browser s; pages := pages s;
     lastAccessed := lastAccessed s; currentUrl := u; metadata := metadata s |}.

(** ** Effects *)

Inductive Event :=
| EvLaunch
| EvNewPage (b : Browser)
| EvPageClose (p : Page)
| EvBrowserClose (b : Browser)
| EvMapSet (key : string)
| EvMapDelete (key : string)
| EvConsoleLog (line : string)
| EvConsoleError (line : string).

Record Server := {
  sessions : gmap string SessionData;
  trace : list Event;
}.

Definition initial : Server := {| sessions := ∅; trace := [] |}.

(** What the world outside the server answers while one request (or one
    timer tick) is being handled. *)
Record Env := {
  (* Date.now() at its four call sites *)
  clock_sweep : Z;
  clock_create : Z;
  clock_touch : Z;
  clock_reply : string → Z;
  (* randomUUID() and process.uptime() *)
  uuid : string;
  uptime : float;
  (* puppeteer *)
  launch : Res Browser;
  newPage : Browser → Res Page;
  page_close : Page → Res unit;
  browser_close : Browser → Res unit;
  setViewport : Page → Z → Z → Res unit;
  goto : Page → option string → string → Res unit;
  page_title : Page → Res string;
  page_url : Page → string;
  page_content : Page → Res string;
  page_click : Page → option string → Res unit;
  click_and_wait : Page → option string → Res unit;
  waitForSelector : Page → string → Res unit;
  sleep : Z → Res unit;
  page_screenshot : Page → Res string;
  sharp_jpeg_base64 : string → Res string;
  page_evaluate : Page → option string → Res string;
}.

Definition M (A : Type) : Type := Server → Res A * Server.

Definition ret {A} (a : A) : M A := fun st => (Ok a, st).

Definition throw {A} (msg : string) : M A := fun st => (Throw msg, st).

Definition bind {A B} (m : M A) (k : A → M B) : M B :=
  fun st =>
    match m st with
    | (Ok a, st') => k a st'
    | (Throw msg, st') => (Throw msg, st')
    end.

Definition try_catch {A} (m : M A) (handler : string → M A) : M A :=
  fun st =>
    match m st with
    | (Ok a, st') => (Ok a, st')
    | (Throw msg, st') => handler msg st'
    end.

Notation "x <- m ;; k" := (bind m (fun x => k))
  (at level 100, m at next level, right associativity).
Notation "m ;; k" := (bind m (fun _ => k))
  (at level 100, right associativity).

(** [await p] / a call into the library: the answer comes from [Env]. *)
Definition lift {A} (r : Res A) : M A := fun st => (r, st).

Definition emit (e : Event) : M unit :=
  fun st => (Ok tt, {| sessions := sessions st; trace := trace st ++ [e] |}).

Definition console_log (line : string) : M unit := emit (EvConsoleLog line).
Definition console_error (line : string) : M unit := emit (EvConsoleError line).

Definition sessions_size : M nat := fun st => (Ok (size (sessions st)), st).

Definition sessions_get (key : string) : M (option SessionData) :=
  fun st => (Ok (sessions st !! key), st).

Definition sessions_entries : M (list (string * SessionData)) :=
  fun st => (Ok (map_to_list (sessions st)), st).

Definition sessions_set (key : string) (s : SessionData) : M unit :=
  fun st => (Ok tt, {| sessions := <[key := s]> (sessions st);
                       trace := trace st ++ [EvMapSet key] |}).

Definition sessions_delete (key : string) : M unit :=
  fun st => (Ok tt, {| sessions := delete key (sessions st);
                       trace := trace st ++ [EvMapDelete key] |}).

(** A field assignment through the reference [session] obtained from the
    map under [key]: the record stored under [key] changes; a record that
    is no longer in the map is not put back. *)
Definition mutate (key : string) (s' : SessionData) : M unit :=
  fun st => (Ok tt, {| sessions := alter (fun _ => s') key (sessions st);
                       trace := trace st |}).

(** [Math.round(ms / 1000)] for an integer [ms]: ties go up. *)
Definition round_seconds (ms : Z) : Z := (ms + 500) `div` 1000.

(** ** Session management (browser-server.js) *)

Section SessionManagement.
Context (cfg : Config) (E : Env).

Definition getSession (sessionId : string) : M SessionData :=
  o <- sessions_get sessionId ;;
  match o with
  | None => throw ("Session not found: " +:+ sessionId)
  | Some session =>
      let session := set_lastAccessed (clock_touch E) session in
      mutate sessionId session ;;
      ret session
  end.

(** [session] is the record the route holds a reference to, stored under
    [key]; [session.pages.push(page)] changes both. *)
Definition getCurrentPage (key : string) (session : SessionData)
  : M (Page * SessionData) :=
  match last (pages session) with
  | None =>
      emit (EvNewPage (browser session)) ;;
      page <- lift (newPage E (browser session)) ;;
      let session := push_page page session in
      mutate key session ;;
      ret (page, session)
  | Some page => ret (page, session)
  end.

(** [for (const page of session.pages) { try { await page.close() } catch .. }] *)
Fixpoint close_pages (ps : list Page) : M unit :=
  match ps with
  | [] => ret tt
  | page :: rest =>
      try_catch
        (emit (EvPageClose page) ;; lift (page_close E page))
        (fun msg => console_error ("[SESSION] Error closing page: " +:+ msg)) ;;
      close_pages rest
  end.

Definition destroySession (sessionId : string) : M bool :=
  o <- sessions_get sessionId ;;
  match o with
  | None => ret false
  | Some session =>
      try_catch
        (close_pages (pages session) ;;
         emit (EvBrowserClose (browser session)) ;;
         lift (browser_close E (browser session)))
        (fun msg =>
           console_error ("[SESSION] Error destroying session " +:+ sessionId
                          +:+ ": " +:+ msg)) ;;
      sessions_delete sessionId ;;
      n <- sessions_size ;;
      console_log ("[SESSION] Destroyed: " +:+ sessionId
                   +:+ " | Remaining: " +:+ pretty n) ;;
      ret true
  end.

(** [now - session.lastAccessed > CONFIG.SESSION_TIMEOUT_MS] *)
Definition is_expired (now : Z) (entry : string * SessionData) : Prop :=
  (SESSION_TIMEOUT_MS cfg < now - lastAccessed entry.2)%Z.

#[global] Instance is_expired_dec now entry : Decision (is_expired now entry).
Proof. unfold is_expired. apply _. Defined.

(** [for (const sessionId of expiredSessions) { console.log(..); await
    destroySession(sessionId) }]; the log line reads
    [sessions.get(sessionId).lastAccessed], which throws a [TypeError] when
    the id is no longer in the map. *)
Fixpoint destroy_each (now : Z) (ids : list string) : M unit :=
  match ids with
  | [] => ret tt
  | sessionId :: rest =>
      o <- sessions_get sessionId ;;
      match o with
      | None =>
          throw "Cannot read properties of undefined (reading 'lastAccessed')"
      | Some session =>
          console_log ("[CLEANUP] Expiring session: " +:+ sessionId
                       +:+ " (idle for "
                       +:+ pretty (round_seconds (now - lastAccessed session))
                       +:+ "s)") ;;
          destroySession sessionId ;;
          destroy_each now rest
      end
  end.

Definition cleanupExpiredSessions : M nat :=
  let now := clock_sweep E in
  entries <- sessions_entries ;;
  let expiredSessions := (filter (is_expired now) entries).*1 in
  destroy_each now expiredSessions ;;
  ret (length expiredSessions).

Definition createSession (metadata : option Metadata) : M SessionData :=
  n <- sessions_size ;;
  (if decide (MAX_SESSIONS cfg ≤ n)%nat then
     cleanupExpiredSessions ;;
     n' <- sessions_size ;;
     if decide (MAX_SESSIONS cfg ≤ n')%nat then
       throw ("Maximum session limit reached (" +:+ pretty (MAX_SESSIONS cfg)
              +:+ ")")
     else ret tt
   else ret tt) ;;
  let sessionId := "ses_" +:+ uuid E in
  emit EvLaunch ;;
  browser <- lift (launch E) ;;
  let sessionData :=
    {| sess_id := sessionId; browser := browser; pages := [];
       lastAccessed := clock_create E; currentUrl := None;
       metadata := default [] metadata |} in
  sessions_set sessionId sessionData ;;
  n <- sessions_size ;;
  console_log ("[SESSION] Created: " +:+ sessionId +:+ " | Total: " +:+ pretty n) ;;
  ret sessionData.

End SessionManagement.

(** ** API routes (browser-server.js) *)

Record SessionInfo := {
  info_id : string;
  pagesCount : nat;
  info_currentUrl : option string;
  info_lastAccessed : Z;
  idleTime : Z;
  info_metadata : Metadata;
}.

(** The JSON bodies sent by [res.json]. *)
Inductive Body :=
| BHealth (status : string) (sessions : nat) (maxSessions : nat) (uptime : float)
| BCreated (sessionId : string) (metadata : Metadata)
| BInfo (session : SessionInfo)
| BNavigated (title url : string)
| BClicked (newUrl title : string)
| BScreenshot (screenshot url title : string)
| BEvaluated (result : string)
| BContent (title url content : string) (contentLength : nat)
| BDeleted (success : bool)
| BList (sessions : list SessionInfo) (count : nat)
| BError (error : string).

Record Response := { status_code : nat; body : Body }.

Inductive Request :=
| GetHealth
| PostCreate (metadata : option Metadata)
| GetInfo (id : string)
| PostNavigate (id : string) (url : option string) (waitUntil : option string)
| PostClick (id : string) (selector : option string) (waitForNavigation : bool)
| PostScreenshot (id : string) (width height delay : option Z)
    (waitForSelector : option string)
| PostEvaluate (id : string) (script : option string)
| GetContent (id : string)
| DeleteSession (id : string)
| GetSessions.

Definition json (b : Body) : M Response :=
  ret {| status_code := 200; body := b |}.

Definition fail_with (code : nat) (msg : string) : M Response :=
  ret {| status_code := code; body := BError msg |}.

(** JavaScript truthiness of an optional string. *)
Definition truthy (o : option string) : bool :=
  match o with
  | Some (String _ _) => true
  | _ => false
  end.

Section Routes.
Context (cfg : Config) (E : Env).

Definition session_info (session : SessionData) : SessionInfo :=
  {| info_id := sess_id session;
     pagesCount := length (pages session);
     info_currentUrl := currentUrl session;
     info_lastAccessed := lastAccessed session;
     idleTime := clock_reply E (sess_id session) - lastAccessed session;
     info_metadata := metadata session |}.

(** [GET /health] *)
Definition route_health : M Response :=
  n <- sessions_size ;;
  json (BHealth "ok" n (MAX_SESSIONS cfg) (uptime E)).

(** [POST /session/create] *)
Definition route_create (meta : option Metadata) : M Response :=
  try_catch
    (session <- createSession cfg E meta ;;
     json (BCreated (sess_id session) (metadata session)))
    (fail_with 500).

(** [GET /session/:id/info] *)
Definition route_info (id : string) : M Response :=
  try_catch
    (session <- getSession E id ;;
     json (BInfo (session_info session)))
    (fail_with 404).

(** [POST /session/:id/navigate] *)
Definition route_navigate (id : string) (url waitUntil : option string)
  : M Response :=
  try_catch
    (session <- getSession E id ;;
     let waitUntil := default "networkidle2" waitUntil in
     ps <- getCurrentPage E id session ;;
     let page := ps.1 in
     let session := ps.2 in
     lift (setViewport E page 800 600) ;;
     lift (goto E page url waitUntil) ;;
     mutate id (set_currentUrl url session) ;;
     title <- lift (page_title E page) ;;
     let pageUrl := page_url E page in
     json (BNavigated title pageUrl))
    (fail_with 500).

(** [POST /session/:id/click]; [click_and_wait] is the [Promise.all] of
    [page.waitForNavigation] and [page.click]. *)
Definition route_click (id : string) (selector : option string)
    (waitForNavigation : bool) : M Response :=
  try_catch
    (session <- getSession E id ;;
     ps <- getCurrentPage E id session ;;
     let page := ps.1 in
     let session := ps.2 in
     (if waitForNavigation then lift (click_and_wait E page selector)
      else lift (page_click E page selector)) ;;
     let newUrl := page_url E page in
     title <- lift (page_title E page) ;;
     mutate id (set_currentUrl (Some newUrl) session) ;;
     json (BClicked newUrl title))
    (fail_with 500).

(** [POST /session/:id/screenshot]; [sharp_jpeg_base64] is the [sharp]
    resize-and-encode chain followed by [toString('base64')]. *)
Definition route_screenshot (id : string) (width height delay : option Z)
    (selector : option string) : M Response :=
  try_catch
    (session <- getSession E id ;;
     let width := default 800%Z width in
     let height := default 600%Z height in
     let delay := default 0%Z delay in
     ps <- getCurrentPage E id session ;;
     let page := ps.1 in
     lift (setViewport E page width height) ;;
     (if truthy selector
      then lift (waitForSelector E page (default "" selector))
      else ret tt) ;;
     (if decide (0 < delay)%Z then lift (sleep E delay) else ret tt) ;;
     screenshotBuffer <- lift (page_screenshot E page) ;;
     screenshot <- lift (sharp_jpeg_base64 E screenshotBuffer) ;;
     let url := page_url E page in
     title <- lift (page_title E page) ;;
     json (BScreenshot screenshot url title))
    (fail_with 500).

(** [POST /session/:id/evaluate] *)
Definition route_evaluate (id : string) (script : option string)
  : M Response :=
  try_catch
    (session <- getSession E id ;;
     ps <- getCurrentPage E id session ;;
     result <- lift (page_evaluate E ps.1 script) ;;
     json (BEvaluated result))
    (fail_with 500).

(** [GET /session/:id/content] *)
Definition route_content (id : string) : M Response :=
  try_catch
    (session <- getSession E id ;;
     ps <- getCurrentPage E id session ;;
     let page := ps.1 in
     content <- lift (page_content E page) ;;
     title <- lift (page_title E page) ;;
     let url := page_url E page in
     json (BContent title url (String.substring 0 10000 content)
             (String.length content)))
    (fail_with 500).

(** [DELETE /session/:id] *)
Definition route_delete (id : string) : M Response :=
  try_catch
    (destroyed <- destroySession E id ;;
     json (BDeleted destroyed))
    (fail_with 500).

(** [GET /sessions] *)
Definition route_sessions : M Response :=
  entries <- sessions_entries ;;
  let sessionList := map (fun kv => session_info kv.2) entries in
  json (BList sessionList (length sessionList)).

Definition handle (r : Request) : M Response :=
  match r with
  | GetHealth => route_health
  | PostCreate metadata => route_create metadata
  | GetInfo id => route_info id
  | PostNavigate id url waitUntil => route_navigate id url waitUntil
  | PostClick id selector wait => route_click id selector wait
  | PostScreenshot id w h d sel => route_screenshot id w h d sel
  | PostEvaluate id script => route_evaluate id script
  | GetContent id => route_content id
  | DeleteSession id => route_delete id
  | GetSessions => route_sessions
  end.

(** The [setInterval] callback. *)
Definition cleanup_tick : M unit :=
  cleaned <- cleanupExpiredSessions cfg E ;;
  if decide (0 < cleaned)%nat then
    console_log ("[CLEANUP] Removed " +:+ pretty cleaned
                 +:+ " expired session(s)")
  else ret tt.

End Routes.

(** ** Runs of the server

    The event loop runs one request handler or one timer callback at a
    time; a run is a sequence of them, each with the answers the outside
    world gives while it is handled.  In a run every handler goes to its
    end in one piece; what happens when a handler is overtaken at an
    [await] is the subject of the sections on requests that overlap. *)

Inductive Action :=
| Http (r : Request)
| TimerTick.

Definition step (cfg : Config) (E : Env) (a : Action) (st : Server) : Server :=
  match a with
  | Http r => (handle cfg E r st).2
  | TimerTick => (cleanup_tick cfg E st).2
  end.

Definition run (cfg : Config) (l : list (Env * Action)) (st : Server) : Server :=
  foldl (fun st ea => step cfg ea.1 ea.2 st) st l.

(** ** Tool handlers of the MCP bridge (index.js)

    The bridge reaches the server through [browserServerRequest], which runs
    [curl] inside the container with [execSync] and parses its output with
    [JSON.parse]; both can throw.  The request path selects the route, so a
    request is given here as the [Request] it reaches: that is the route
    and the session the tool handler means when the id it pastes into the
    path is plain (see [plain_id]), as the ids the server issues are. *)

(** What happens to one [browserServerRequest]: the reply is parsed and
    returned, or [execSync]/[JSON.parse] throws, before the server saw the
    request or after it handled it. *)
Inductive Wire :=
| Delivered
| Lost (msg : string)
| ReplyLost (msg : string).

Record Hop := { hop_wire : Wire; hop_env : Env }.

Record ToolArgs := {
  arg_url : option string;
  arg_sessionId : option string;
  arg_waitUntil : option string;
  arg_width : option Z;
  arg_height : option Z;
  arg_delay : option Z;
  arg_waitForSelector : option string;
}.

Inductive ToolResult :=
| NavigateResult (success : option bool) (title url : option string)
    (contentLength : option nat) (content : option string)
    (sessionId : option string)
| ScreenshotResult (success : option bool) (screenshot url title : option string)
| ToolError (text : string).

(** [`${x}`] for a string that may be [undefined]. *)
Definition template (o : option string) : string := default "undefined" o.

(** [a || d] for an optional string and for an optional number. *)
Definition or_string (o : option string) (d : string) : string :=
  if truthy o then default d o else d.

Definition or_number (o : option Z) (d : Z) : Z :=
  match o with
  | Some z => if decide (z = 0%Z) then d else z
  | None => d
  end.

Definition resp_success (b : Body) : option bool :=
  match b with
  | BError _ => Some false
  | BDeleted destroyed => Some destroyed
  | BHealth _ _ _ _ => None
  | _ => Some true
  end.

Definition resp_sessionId (b : Body) : option string :=
  match b with BCreated sessionId _ => Some sessionId | _ => None end.

Definition resp_title (b : Body) : option string :=
  match b with
  | BNavigated title _ | BClicked _ title | BScreenshot _ _ title
  | BContent title _ _ _ => Some title
  | _ => None
  end.

Definition resp_url (b : Body) : option string :=
  match b with
  | BNavigated _ url | BScreenshot _ url _ | BContent _ url _ _ => Some url
  | _ => None
  end.

Definition resp_content (b : Body) : option string :=
  match b with BContent _ _ content _ => Some content | _ => None end.

Definition resp_contentLength (b : Body) : option nat :=
  match b with BContent _ _ _ n => Some n | _ => None end.

Definition resp_screenshot (b : Body) : option string :=
  match b with BScreenshot screenshot _ _ => Some screenshot | _ => None end.

Section Bridge.
Context (cfg : Config).

Definition browserServerRequest (h : Hop) (r : Request) : M Body :=
  match hop_wire h with
  | Delivered =>
      resp <- handle cfg (hop_env h) r ;;
      ret (body resp)
  | Lost msg => throw ("Browser server request failed: " +:+ msg)
  | ReplyLost msg =>
      handle cfg (hop_env h) r ;;
      throw ("Browser server request failed: " +:+ msg)
  end.

Definition temporary : Metadata := [("temporary", "true")].

(** [case 'puppeteer_navigate'] *)
Definition puppeteer_navigate (args : ToolArgs) (h1 h2 h3 h4 : Hop)
  : M ToolResult :=
  let sessionId := arg_sessionId args in
  let tempSession := negb (truthy sessionId) in
  activeSessionId <-
    (if tempSession then
       createResp <- browserServerRequest h1 (PostCreate (Some temporary)) ;;
       ret (resp_sessionId createResp)
     else ret sessionId) ;;
  response <- browserServerRequest h2
    (PostNavigate (template activeSessionId) (arg_url args)
       (Some (or_string (arg_waitUntil args) "networkidle2"))) ;;
  contentResp <- browserServerRequest h3 (GetContent (template activeSessionId)) ;;
  (if tempSession then
     browserServerRequest h4 (DeleteSession (template activeSessionId)) ;; ret tt
   else ret tt) ;;
  ret (NavigateResult (resp_success response) (resp_title contentResp)
         (resp_url contentResp) (resp_contentLength contentResp)
         (resp_content contentResp)
         (if tempSession then None else activeSessionId)).

(** [case 'puppeteer_screenshot'] *)
Definition puppeteer_screenshot (args : ToolArgs) (h1 h2 h3 h4 : Hop)
  : M ToolResult :=
  let sessionId := arg_sessionId args in
  let tempSession := negb (truthy sessionId) in
  activeSessionId <-
    (if tempSession then
       if truthy (arg_url args) then
         createResp <- browserServerRequest h1 (PostCreate (Some temporary)) ;;
         let activeSessionId := resp_sessionId createResp in
         browserServerRequest h2
           (PostNavigate (template activeSessionId) (arg_url args)
              (Some "networkidle2")) ;;
         ret activeSessionId
       else throw "url is required when sessionId is not provided"
     else ret sessionId) ;;
  response <- browserServerRequest h3
    (PostScreenshot (template activeSessionId)
       (Some (or_number (arg_width args) 800))
       (Some (or_number (arg_height args) 600))
       (Some (or_number (arg_delay args) 0))
       (arg_waitForSelector args)) ;;
  (if tempSession then
     browserServerRequest h4 (DeleteSession (template activeSessionId)) ;; ret tt
   else ret tt) ;;
  ret (ScreenshotResult (resp_success response) (resp_screenshot response)
         (resp_url response) (resp_title response)).

(** The [try { switch (name) .. } catch (error)] around every tool. *)
Definition call_tool (tool : M ToolResult) : M ToolResult :=
  try_catch tool (fun msg => ret (ToolError ("Error: " +:+ msg))).

End Bridge.

(** ** Expected effects of a teardown *)

Definition page_teardown (E : Env) (p : Page) : list Event :=
  EvPageClose p ::
  match page_close E p with
  | Ok _ => []
  | Throw msg => [EvConsoleError ("[SESSION] Error closing page: " +:+ msg)]
  end.

Definition browser_teardown (E : Env) (sessionId : string) (b : Browser)
  : list Event :=
  EvBrowserClose b ::
  match browser_close E b with
  | Ok _ => []
  | Throw msg =>
      [EvConsoleError ("[SESSION] Error destroying session " +:+ sessionId
                       +:+ ": " +:+ msg)]
  end.

Definition teardown (E : Env) (sessionId : string) (session : SessionData)
    (remaining : nat) : list Event :=
  concat (map (page_teardown E) (pages session))
  ++ browser_teardown E sessionId (browser session)
  ++ [EvMapDelete sessionId;
      EvConsoleLog ("[SESSION] Destroyed: " +:+ sessionId
                    +:+ " | Remaining: " +:+ pretty remaining)].

(** The ids a sweep at [now] collects from the registry [m]. *)
Definition expired_ids (cfg : Config) (now : Z) (m : gmap string SessionData)
  : list string :=
  (filter (is_expired cfg now) (map_to_list m)).*1.

(** The keys removed from the map, read off a trace. *)
Definition deleted_keys (tr : list Event) : list string :=
  omap (fun e => match e with EvMapDelete key => Some key | _ => None end) tr.

(** The events of destroying the collected [ids] one after the other. *)
Fixpoint expire_events (E : Env) (now : Z) (ids : list string)
    (m : gmap string SessionData) : list Event :=
  match ids with
  | [] => []
  | sessionId :: rest =>
      match m !! sessionId with
      | None => []
      | Some session =>
          EvConsoleLog ("[CLEANUP] Expiring session: " +:+ sessionId
                        +:+ " (idle for "
                        +:+ pretty (round_seconds (now - lastAccessed session))
                        +:+ "s)")
          :: teardown E sessionId session (size (delete sessionId m))
          ++ expire_events E now rest (delete sessionId m)
      end
  end.

(** ** Invariants of the registry *)

Record wf (cfg : Config) (m : gmap string SessionData) : Prop := {
  wf_capacity : size m ≤ MAX_SESSIONS cfg;
  wf_pages : ∀ k session, m !! k = Some session → length (pages session) ≤ 1;
}.

(** [keeps cfg c φ]: the computation [c] leaves a well-formed registry
    well-formed, whether it returns or throws, and what it returns
    satisfies [φ]. *)
Definition keeps (cfg : Config) {A} (c : M A) (φ : A → Prop) : Prop :=
  ∀ st, wf cfg (sessions st) →
        wf cfg (sessions (c st).2) ∧ ∀ a, (c st).1 = Ok a → φ a.

(** What a reply may say about the number of pages. *)
Definition reported_ok (r : Response) : Prop :=
  match body r with
  | BInfo i => pagesCount i ≤ 1
  | BList l _ => Forall (fun i => pagesCount i ≤ 1) l
  | _ => True
  end.

(** The message of the error [createSession] throws at capacity, and of
    the one [getSession] throws for an unknown id. *)
Definition limit_reached (cfg : Config) : string :=
  "Maximum session limit reached (" +:+ pretty (MAX_SESSIONS cfg) +:+ ")".

Definition not_found (sessionId : string) : string :=
  "Session not found: " +:+ sessionId.

(** The page a route works on: the last page, or else a new one. *)
Definition current_page (E : Env) (session : SessionData) : Res Page :=
  match last (pages session) with
  | Some page => Ok page
  | None => newPage E (browser session)
  end.

Definition with_max_pages (n : nat) (cfg : Config) : Config :=
  {| PORT := PORT cfg; MAX_SESSIONS := MAX_SESSIONS cfg;
     SESSION_TIMEOUT_MS := SESSION_TIMEOUT_MS cfg;
     MAX_PAGES_PER_SESSION := n;
     CLEANUP_INTERVAL_MS := CLEANUP_INTERVAL_MS cfg |}.

(** ** Example worlds *)

Definition quiet : Env := {|
  clock_sweep := 0; clock_create := 0; clock_touch := 0;
  clock_reply := fun _ => 0%Z;
  uuid := "0000"; uptime := 1.5%float;
  launch := Ok 1; newPage := fun b => Ok (10 * b);
  page_close := fun _ => Ok tt; browser_close := fun _ => Ok tt;
  setViewport := fun _ _ _ => Ok tt; goto := fun _ _ _ => Ok tt;
  page_title := fun _ => Ok "Example Domain";
  page_url := fun _ => "https://example.com/";
  page_content := fun _ => Ok "<html></html>";
  page_click := fun _ _ => Ok tt; click_and_wait := fun _ _ => Ok tt;
  waitForSelector := fun _ _ => Ok tt; sleep := fun _ => Ok tt;
  page_screenshot := fun _ => Ok "png"; sharp_jpeg_base64 := fun _ => Ok "jpeg";
  page_evaluate := fun _ _ => Ok "null";
|}.

(** [quiet] at another time, with another uuid and another browser. *)
Definition at_time (now : Z) (u : string) (b : Browser) : Env := {|
  clock_sweep := now; clock_create := now; clock_touch := now;
  clock_reply := fun _ => now;
  uuid := u; uptime := uptime quiet;
  launch := Ok b; newPage := newPage quiet;
  page_close := page_close quiet; browser_close := browser_close quiet;
  setViewport := setViewport quiet; goto := goto quiet;
  page_title := page_title quiet; page_url := page_url quiet;
  page_content := page_content quiet;
  page_click := page_click quiet; click_and_wait := click_and_wait quiet;
  waitForSelector := waitForSelector quiet; sleep := sleep quiet;
  page_screenshot := page_screenshot quiet;
  sharp_jpeg_base64 := sharp_jpeg_base64 quiet;
  page_evaluate := page_evaluate quiet;
|}.

(** A world in which closing anything fails. *)
Definition stuck : Env := {|
  clock_sweep := 0; clock_create := 0; clock_touch := 0;
  clock_reply := fun _ => 0%Z;
  uuid := "0000"; uptime := uptime quiet;
  launch := Ok 1; newPage := newPage quiet;
  page_close := fun _ => Throw "Protocol error: Target closed";
  browser_close := fun _ => Throw "Browser crashed";
  setViewport := setViewport quiet; goto := goto quiet;
  page_title := page_title quiet; page_url := page_url quiet;
  page_content := page_content quiet;
  page_click := page_click quiet; click_and_wait := click_and_wait quiet;
  waitForSelector := waitForSelector quiet; sleep := sleep quiet;
  page_screenshot := page_screenshot quiet;
  sharp_jpeg_base64 := sharp_jpeg_base64 quiet;
  page_evaluate := page_evaluate quiet;
|}.

(** A world in which navigation times out. *)
Definition offline : Env := {|
  clock_sweep := 0; clock_create := 0; clock_touch := 7;
  clock_reply := fun _ => 7%Z;
  uuid := "0000"; uptime := uptime quiet;
  launch := Ok 1; newPage := newPage quiet;
  page_close := page_close quiet; browser_close := browser_close quiet;
  setViewport := setViewport quiet;
  goto := fun _ _ _ => Throw "Navigation timeout of 30000 ms exceeded";
  page_title := page_title quiet; page_url := page_url quiet;
  page_content := page_content quiet;
  page_click := page_click quiet; click_and_wait := click_and_wait quiet;
  waitForSelector := waitForSelector quiet; sleep := sleep quiet;
  page_screenshot := page_screenshot quiet;
  sharp_jpeg_base64 := sharp_jpeg_base64 quiet;
  page_evaluate := page_evaluate quiet;
|}.

Definition session_at (sessionId : string) (b : Browser) (ps : list Page)
    (last : Z) : SessionData :=
  {| sess_id := sessionId; browser := b; pages := ps; lastAccessed := last;
     currentUrl := None; metadata := [] |}.

Definition registry (l : list SessionData) : Server :=
  {| sessions := list_to_map (map (fun s => (sess_id s, s)) l); trace := [] |}.

(** A session that has been navigated once. *)
Definition visited : SessionData :=
  set_currentUrl (Some "https://example.com") (session_at "ses_a" 1 [10] 0).

(** Three sessions seen at time 1000000 with the default timeout of 300000:
    idle for 299999 (below), 300000 (at) and 300001 (above). *)
Definition below_at_above : Server :=
  registry [session_at "ses_below" 1 [] 700001;
            session_at "ses_at" 2 [20] 700000;
            session_at "ses_above" 3 [30] 699999].

(** A full registry seen at time 1000000: four fresh sessions and one that
    has been idle for 300001; and a full registry of fresh sessions. *)
Definition full_one_expired : Server :=
  registry [session_at "ses_1" 1 [] 999000; session_at "ses_2" 2 [] 999000;
            session_at "ses_3" 3 [] 999000; session_at "ses_4" 4 [] 999000;
            session_at "ses_old" 5 [50] 699999].

Definition full_all_fresh : Server :=
  registry [session_at "ses_1" 1 [] 999000; session_at "ses_2" 2 [] 999000;
            session_at "ses_3" 3 [] 999000; session_at "ses_4" 4 [] 999000;
            session_at "ses_5" 5 [50] 700000].

(** Six creations in a row, all at time 0, followed by a timer tick. *)
Definition six_creates : list (Env * Action) :=
  map (fun u => (at_time 0 u 1, Http (PostCreate None)))
    ["a"; "b"; "c"; "d"; "e"; "f"]
  ++ [(at_time 0 "" 0, TimerTick)].

(** A session is created and used three times. *)
Definition browsing : list (Env * Action) :=
  [(at_time 0 "a" 1, Http (PostCreate None));
   (at_time 10 "" 0, Http (PostNavigate "ses_a" (Some "https://example.com") None));
   (at_time 20 "" 0, Http (PostNavigate "ses_a" (Some "https://example.org") None));
   (at_time 30 "" 0, Http (GetContent "ses_a"))].

(** Requests that reach the server and are answered, and requests for
    which [execSync] throws. *)
Definition delivered (E : Env) : Hop := {| hop_wire := Delivered; hop_env := E |}.

Definition lost (E : Env) : Hop :=
  {| hop_wire := Lost "Command failed"; hop_env := E |}.

Definition reply_lost (E : Env) : Hop :=
  {| hop_wire := ReplyLost "Command failed"; hop_env := E |}.

(** [{ url: 'https://example.com' }]: no session id. *)
Definition just_url : ToolArgs :=
  {| arg_url := Some "https://example.com"; arg_sessionId := None;
     arg_waitUntil := None; arg_width := None; arg_height := None;
     arg_delay := None; arg_waitForSelector := None |}.

(** [shrinks c]: the computation [c] adds no key to the registry. *)
Definition shrinks {A} (c : M A) : Prop :=
  ∀ st, dom (sessions (c st).2) ⊆ dom (sessions st).

(** The reply of the server to a request. *)
Definition reply (cfg : Config) (E : Env) (r : Request) (st : Server) : Response :=
  match (handle cfg E r st).1 with
  | Ok resp => resp
  | Throw msg => {| status_code := 500; body := BError msg |}
  end.

(** ** Further definitions: what a request is about, and invariants of
    the records *)

(** The session a request names. *)
Definition target (r : Request) : option string :=
  match r with
  | GetInfo id | PostNavigate id _ _ | PostClick id _ _
  | PostScreenshot id _ _ _ _ | PostEvaluate id _ | GetContent id
  | DeleteSession id => Some id
  | GetHealth | PostCreate _ | GetSessions => None
  end.

Definition is_create (r : Request) : bool :=
  match r with PostCreate _ => true | _ => false end.

Definition is_delete (r : Request) : bool :=
  match r with DeleteSession _ => true | _ => false end.

(** [holds Φ c φ]: if every record of the registry satisfies [Φ] (under its
    key) before [c], so it does after, whether [c] returns or throws, and
    what [c] returns satisfies [φ]. *)
Definition holds (Φ : string → SessionData → Prop) {A} (c : M A)
    (φ : A → Prop) : Prop :=
  ∀ st, map_Forall Φ (sessions st) →
        map_Forall Φ (sessions (c st).2) ∧ ∀ a, (c st).1 = Ok a → φ a.

(** [Φ] survives the three assignments the routes make to a record stored
    under [id], the lookup being stamped with the time [t]. *)
Definition stable_at (Φ : string → SessionData → Prop) (t : Z) (id : string)
  : Prop :=
  ∀ session, Φ id session →
    Φ id (set_lastAccessed t session)
    ∧ (∀ p, Φ id (push_page p session))
    ∧ (∀ u, Φ id (set_currentUrl u session)).

(** [same_keys c]: the computation [c] neither adds nor removes a key. *)
Definition same_keys {A} (c : M A) : Prop :=
  ∀ st, dom (sessions (c st).2) = dom (sessions st).

(** A request leaves [other] alone when it is not a creation and does not
    name [other]. *)
Definition leaves_alone (other : string) (r : Request) : Prop :=
  is_create r = false ∧ target r ≠ Some other.

(** Two sessions side by side. *)
Definition two_agents : Server :=
  registry [set_currentUrl (Some "https://example.com")
              (session_at "ses_a" 1 [10] 0);
            set_currentUrl (Some "https://example.org")
              (session_at "ses_b" 2 [20] 0)].

(** The record [createSession] stores when the browser [b] was launched. *)
Definition fresh_record (E : Env) (b : Browser) (md : Metadata) : SessionData :=
  {| sess_id := "ses_" +:+ uuid E; browser := b; pages := [];
     lastAccessed := clock_create E; currentUrl := None; metadata := md |}.

(** A world in which the browser cannot be launched, and one in which the
    title of a page cannot be read. *)
Definition no_browser : Env := {|
  clock_sweep := 0; clock_create := 0; clock_touch := 0;
  clock_reply := fun _ => 0%Z;
  uuid := "0000"; uptime := uptime quiet;
  launch := Throw "Failed to launch the browser process!";
  newPage := newPage quiet;
  page_close := page_close quiet; browser_close := browser_close quiet;
  setViewport := setViewport quiet; goto := goto quiet;
  page_title := page_title quiet; page_url := page_url quiet;
  page_content := page_content quiet;
  page_click := page_click quiet; click_and_wait := click_and_wait quiet;
  waitForSelector := waitForSelector quiet; sleep := sleep quiet;
  page_screenshot := page_screenshot quiet;
  sharp_jpeg_base64 := sharp_jpeg_base64 quiet;
  page_evaluate := page_evaluate quiet;
|}.

Definition no_title : Env := {|
  clock_sweep := 0; clock_create := 0; clock_touch := 0;
  clock_reply := fun _ => 0%Z;
  uuid := "0000"; uptime := uptime quiet;
  launch := launch quiet; newPage := newPage quiet;
  page_close := page_close quiet; browser_close := browser_close quiet;
  setViewport := setViewport quiet; goto := goto quiet;
  page_title := fun _ => Throw "Execution context was destroyed";
  page_url := page_url quiet;
  page_content := page_content quiet;
  page_click := page_click quiet; click_and_wait := click_and_wait quiet;
  waitForSelector := waitForSelector quiet; sleep := sleep quiet;
  page_screenshot := page_screenshot quiet;
  sharp_jpeg_base64 := sharp_jpeg_base64 quiet;
  page_evaluate := page_evaluate quiet;
|}.

(** [{ url: .., sessionId: 'ses_a' }] *)
Definition with_session : ToolArgs :=
  {| arg_url := Some "https://example.net"; arg_sessionId := Some "ses_a";
     arg_waitUntil := None; arg_width := None; arg_height := None;
     arg_delay := None; arg_waitForSelector := None |}.

(** The server after a lookup of [id] at time [t] that nothing followed. *)
Definition touched (t : Z) (id : string) (st : Server) : Server :=
  {| sessions := alter (set_lastAccessed t) id (sessions st);
     trace := trace st |}.

(** ** Shutdown (browser-server.js) *)

Definition newline : string := String (Ascii.ascii_of_nat 10) "".

(** The server process: its registry and console, whether the cleanup
    interval is still armed, and the code it exited with, if it did. *)
Record Process := {
  proc_server : Server;
  interval_armed : bool;
  exit_code : option nat;
}.

Definition running (st : Server) : Process :=
  {| proc_server := st; interval_armed := true; exit_code := None |}.

(** [Array.from(sessions.keys())] *)
Definition sessions_keys : M (list string) :=
  fun st => (Ok (map_to_list (sessions st)).*1, st).

(** [for (const sessionId of sessionIds) { await destroySession(sessionId) }] *)
Fixpoint destroy_all (E : Env) (ids : list string) : M unit :=
  match ids with
  | [] => ret tt
  | sessionId :: rest => destroySession E sessionId ;; destroy_all E rest
  end.

(** [shutdown]: log, [clearInterval], destroy every session, then
    [process.exit(0)], which is reached only if nothing before it throws. *)
Definition shutdown (E : Env) (p : Process) : Process :=
  let closing :=
    console_log (newline +:+ "[SERVER] Shutting down gracefully...") ;;
    sessionIds <- sessions_keys ;;
    destroy_all E sessionIds in
  match closing (proc_server p) with
  | (Ok _, st) =>
      {| proc_server := st; interval_armed := false; exit_code := Some 0 |}
  | (Throw _, st) =>
      {| proc_server := st; interval_armed := false; exit_code := None |}
  end.

(** The events of destroying [ids] one after the other, starting from the
    registry [m]. *)
Fixpoint teardown_all (E : Env) (ids : list string)
    (m : gmap string SessionData) : list Event :=
  match ids with
  | [] => []
  | sessionId :: rest =>
      match m !! sessionId with
      | Some session => teardown E sessionId session (size (delete sessionId m))
      | None => []
      end ++ teardown_all E rest (delete sessionId m)
  end.

(** ** Shell quoting (index.js) *)

Definition quote : Ascii.ascii := Ascii.ascii_of_nat 39.
Definition backslash : Ascii.ascii := Ascii.ascii_of_nat 92.

(** [arg.replace(/'/g, "'\\''")]: every single quote becomes the four
    characters quote, backslash, quote, quote. *)
Fixpoint replace_quotes (arg : string) : string :=
  match arg with
  | EmptyString => EmptyString
  | String c rest =>
      if Ascii.eqb c quote
      then String quote (String backslash (String quote (String quote
             (replace_quotes rest))))
      else String c (replace_quotes rest)
  end.

Definition escapeShellArg (arg : string) : string :=
  String quote (replace_quotes arg) +:+ String quote EmptyString.

(** How [sh] reads a word made of single-quoted parts and of characters
    escaped by a backslash (POSIX quoting: between single quotes every
    character stands for itself; outside, a backslash makes the next
    character stand for itself).  [None] when a quote is left open, when a
    backslash ends the input, or when a character is neither quoted nor
    escaped, so that the shell might split or expand there. *)
Fixpoint sh_read (inside : bool) (word : string) : option string :=
  match word with
  | EmptyString => if inside then None else Some EmptyString
  | String c rest =>
      if inside then
        if Ascii.eqb c quote then sh_read false rest
        else String c <$> sh_read true rest
      else if Ascii.eqb c quote then sh_read true rest
      else if Ascii.eqb c backslash then
        match rest with
        | String d rest' => String d <$> sh_read false rest'
        | EmptyString => None
        end
      else None
  end.

(** ** The session tools of the bridge (index.js)

    From here on the characters of a string are read as code units, and
    only code units below 256 occur. *)

(** The white space and line terminators that [String.prototype.trim]
    removes, among the code units below 256: tab, line feed, vertical tab,
    form feed, carriage return, space and no-break space. *)
Definition is_space (c : Ascii.ascii) : bool :=
  let n := Ascii.nat_of_ascii c in
  bool_decide (n = 9 ∨ n = 10 ∨ n = 11 ∨ n = 12 ∨ n = 13 ∨ n = 32 ∨ n = 160).

Fixpoint trim_start (s : string) : string :=
  match s with
  | EmptyString => EmptyString
  | String c rest => if is_space c then trim_start rest else s
  end.

Fixpoint trim_end (s : string) : string :=
  match s with
  | EmptyString => EmptyString
  | String c rest =>
      match trim_end rest with
      | EmptyString => if is_space c then EmptyString else String c EmptyString
      | kept => String c kept
      end
  end.

Definition trim (s : string) : string := trim_end (trim_start s).

(** [isBrowserServerRunning]: [probe] is what [execSync] gives for the
    [curl] that prints the status code of [/health]. *)
Definition isBrowserServerRunning (probe : Res string) : bool :=
  match probe with
  | Ok result => bool_decide (trim result = "200")
  | Throw _ => false
  end.

(** [startBrowserServer] writes its instructions to stderr, which the model
    of the bridge does not keep, and returns [false]. *)
Definition startBrowserServer : bool := false.

Definition ensureBrowserServer (probe : Res string) : bool :=
  if negb (isBrowserServerRunning probe) then startBrowserServer else true.

Definition dquote : string := String (Ascii.ascii_of_nat 34) EmptyString.

Definition failed_to_start : string :=
  "Failed to start browser server. Please start it manually: "
  +:+ "proot-distro login alpine -- sh -c " +:+ dquote
  +:+ "cd /root && node browser-server.js" +:+ dquote.

Inductive SessionToolResult :=
| CreateSessionResult (success : option bool) (sessionId : option string)
    (message : string)
| CloseSessionResult (success : option bool) (message : string)
| SessionToolError (text : string).

Section SessionTools.
Context (cfg : Config).

(** [case 'create_session'] *)
Definition create_session (probe : Res string) (meta : option Metadata)
    (h : Hop) : M SessionToolResult :=
  if negb (ensureBrowserServer probe) then throw failed_to_start
  else
    response <- browserServerRequest cfg h (PostCreate (Some (default [] meta))) ;;
    ret (CreateSessionResult (resp_success response) (resp_sessionId response)
           ("Session created: " +:+ template (resp_sessionId response)
            +:+ ". Use this ID in subsequent calls to maintain state.")).

(** [case 'close_session'] *)
Definition close_session (sessionId : option string) (h : Hop)
  : M SessionToolResult :=
  response <- browserServerRequest cfg h (DeleteSession (template sessionId)) ;;
  ret (CloseSessionResult (resp_success response)
         ("Session " +:+ template sessionId +:+ " closed successfully")).

Definition call_session_tool (tool : M SessionToolResult) : M SessionToolResult :=
  try_catch tool (fun msg => ret (SessionToolError ("Error: " +:+ msg))).

End SessionTools.

(** ** Local urls (index.js) *)

Fixpoint strip_prefix (p s : string) : option string :=
  match p with
  | EmptyString => Some s
  | String a p' =>
      match s with
      | String b s' => if Ascii.eqb a b then strip_prefix p' s' else None
      | EmptyString => None
      end
  end.

(** [\d] *)
Definition is_digit (c : Ascii.ascii) : bool :=
  let n := Ascii.nat_of_ascii c in bool_decide (48 ≤ n ≤ 57).

(** The longest run of digits at the head, and what follows it. *)
Fixpoint span_digits (s : string) : string * string :=
  match s with
  | EmptyString => (EmptyString, EmptyString)
  | String c rest =>
      if is_digit c
      then (String c (span_digits rest).1, (span_digits rest).2)
      else (EmptyString, s)
  end.

(** The characters [.] does not match, among the code units below 256:
    line feed and carriage return. *)
Definition is_line_terminator (c : Ascii.ascii) : bool :=
  let n := Ascii.nat_of_ascii c in bool_decide (n = 10 ∨ n = 13).

Fixpoint no_line_terminator (s : string) : bool :=
  match s with
  | EmptyString => true
  | String c rest => negb (is_line_terminator c) && no_line_terminator rest
  end.

Definition slash : Ascii.ascii := Ascii.ascii_of_nat 47.
Definition question : Ascii.ascii := Ascii.ascii_of_nat 63.
Definition dot : Ascii.ascii := Ascii.ascii_of_nat 46.

(** [url.match(localhostPattern)]: the pattern asks for [http] or [https],
    [://], the host [localhost] or [127.0.0.1], a colon, one or more
    digits, and then either nothing or a slash followed by characters that
    are not line terminators, up to the end.  The result is the port and
    the third group, which is absent when nothing follows the port. *)
Definition match_localhost (url : string) : option (string * option string) :=
  match strip_prefix "http" url with
  | None => None
  | Some s1 =>
      match (match strip_prefix "s://" s1 with
             | Some s2 => Some s2
             | None => strip_prefix "://" s1
             end) with
      | None => None
      | Some s2 =>
          match (match strip_prefix "localhost" s2 with
                 | Some s3 => Some s3
                 | None => strip_prefix "127.0.0.1" s2
                 end) with
          | None => None
          | Some s3 =>
              match strip_prefix ":" s3 with
              | None => None
              | Some s4 =>
                  match span_digits s4 with
                  | (EmptyString, _) => None
                  | (port, EmptyString) => Some (port, None)
                  | (port, String c rest) =>
                      if Ascii.eqb c slash && no_line_terminator rest
                      then Some (port, Some (String c rest))
                      else None
                  end
              end
          end
      end
  end.

(** The part of [s] before the first question mark, and the part after it
    when there is one. *)
Fixpoint before_question (s : string) : string * option string :=
  match s with
  | EmptyString => (EmptyString, None)
  | String c rest =>
      if Ascii.eqb c question then (EmptyString, Some rest)
      else (String c (before_question rest).1, (before_question rest).2)
  end.

(** [const [path, queryString] = pathWithQuery.split('?')] *)
Definition split_path_query (s : string) : string * option string :=
  ((before_question s).1,
   (fun after => (before_question after).1) <$> (before_question s).2).

(** [path.includes('..')] *)
Fixpoint includes_dotdot (s : string) : bool :=
  match s with
  | EmptyString => false
  | String a rest =>
      match rest with
      | EmptyString => false
      | String b _ =>
          if Ascii.eqb a dot && Ascii.eqb b dot then true
          else includes_dotdot rest
      end
  end.

(** [path.substring(1)] *)
Definition drop_first (s : string) : string :=
  match s with EmptyString => EmptyString | String _ rest => rest end.

Definition file_url (filePath : string) (queryString : option string) : string :=
  if truthy queryString
  then "file://" +:+ filePath +:+ "?" +:+ default "" queryString
  else "file://" +:+ filePath.

(** [maybeConvertToFileUrl]; [pwd] is what [execSync('pwd')] gives and
    [join] is [path.join]. *)
Definition maybeConvertToFileUrl (pwd : Res string)
    (join : string → string → string) (url : string) : string :=
  match match_localhost url with
  | Some (_, group3) =>
      let pathWithQuery := default "/" group3 in
      let path := (split_path_query pathWithQuery).1 in
      let queryString := (split_path_query pathWithQuery).2 in
      match pwd with
      | Ok out =>
          let cwd := trim out in
          if bool_decide (path = "/" ∨ path = "/index.html") then
            file_url (join cwd "index.html") queryString
          else if negb (includes_dotdot path) then
            file_url (join cwd (drop_first path)) queryString
          else url
      | Throw _ => url
      end
  | None => url
  end.

(** A stand-in for [path.join] on two clean segments. *)
Definition join_with_slash (a b : string) : string := a +:+ "/" +:+ b.

(** ** Requests that overlap (browser-server.js)

    An [async] function gives the event loop back at an [await] and goes
    on when the awaited promise has settled; the handlers of other requests
    run in between.  In [step] every handler runs to its end in one piece.
    Here [createSession] is cut at [await puppeteer.launch(..)], which
    stands between the check of [sessions.size] and [sessions.set].  Every
    other handler, and the sweep, still runs in one piece: the
    interleavings below are some of those the event loop allows, not all
    of them. *)

(** [createSession] up to the call of [puppeteer.launch]. *)
Definition createSession_begin (cfg : Config) (E : Env) : M unit :=
  n <- sessions_size ;;
  (if decide (MAX_SESSIONS cfg ≤ n)%nat then
     cleanupExpiredSessions cfg E ;;
     n' <- sessions_size ;;
     if decide (MAX_SESSIONS cfg ≤ n')%nat then
       throw ("Maximum session limit reached (" +:+ pretty (MAX_SESSIONS cfg)
              +:+ ")")
     else ret tt
   else ret tt) ;;
  emit EvLaunch.

(** [createSession] from the moment the launch has settled. *)
Definition createSession_resume (E : Env) (metadata : option Metadata)
  : M SessionData :=
  let sessionId := "ses_" +:+ uuid E in
  browser <- lift (launch E) ;;
  let sessionData :=
    {| sess_id := sessionId; browser := browser; pages := [];
       lastAccessed := clock_create E; currentUrl := None;
       metadata := default [] metadata |} in
  sessions_set sessionId sessionData ;;
  n <- sessions_size ;;
  console_log ("[SESSION] Created: " +:+ sessionId +:+ " | Total: " +:+ pretty n) ;;
  ret sessionData.

(** The handler of [POST /session/create] up to the await of the launch:
    [Some] reply when [createSession] threw before it, [None] when the
    handler is suspended. *)
Definition route_create_begin (cfg : Config) (E : Env)
  : M (option Response) :=
  try_catch
    (createSession_begin cfg E ;; ret None)
    (fun msg => resp <- fail_with 500 msg ;; ret (Some resp)).

(** The same handler from the moment the launch has settled. *)
Definition route_create_resume (E : Env) (meta : option Metadata)
  : M Response :=
  try_catch
    (session <- createSession_resume E meta ;;
     json (BCreated (sess_id session) (metadata session)))
    (fail_with 500).

(** A creation that waits for its browser. *)
Record Suspended := {
  suspended_env : Env;
  suspended_metadata : option Metadata;
}.

(** The event loop: the server, the creations that wait for their browser,
    and the replies sent so far. *)
Record Loop := {
  loop_server : Server;
  waiting : list Suspended;
  replies : list Response;
}.

Definition at_rest (st : Server) : Loop :=
  {| loop_server := st; waiting := []; replies := [] |}.

(** One turn of the event loop: a request arrives and its handler runs (a
    creation up to the await of the launch), the launch of the [k]-th
    waiting creation settles and its handler runs to the end, or the
    cleanup timer fires. *)
Inductive Turn :=
| Arrives (E : Env) (r : Request)
| Settles (k : nat)
| Fires (E : Env).

Definition turn (cfg : Config) (t : Turn) (l : Loop) : Loop :=
  match t with
  | Arrives E (PostCreate meta) =>
      match route_create_begin cfg E (loop_server l) with
      | (Ok None, st) =>
          {| loop_server := st;
             waiting := waiting l ++ [{| suspended_env := E;
                                         suspended_metadata := meta |}];
             replies := replies l |}
      | (Ok (Some resp), st) =>
          {| loop_server := st; waiting := waiting l;
             replies := replies l ++ [resp] |}
      | (Throw _, st) =>
          {| loop_server := st; waiting := waiting l; replies := replies l |}
      end
  | Arrives E r =>
      match handle cfg E r (loop_server l) with
      | (Ok resp, st) =>
          {| loop_server := st; waiting := waiting l;
             replies := replies l ++ [resp] |}
      | (Throw _, st) =>
          {| loop_server := st; waiting := waiting l; replies := replies l |}
      end
  | Settles k =>
      match waiting l !! k with
      | None => l
      | Some s =>
          match route_create_resume (suspended_env s) (suspended_metadata s)
                  (loop_server l) with
          | (Ok resp, st) =>
              {| loop_server := st; waiting := delete k (waiting l);
                 replies := replies l ++ [resp] |}
          | (Throw _, st) =>
              {| loop_server := st; waiting := delete k (waiting l);
                 replies := replies l |}
          end
      end
  | Fires E =>
      {| loop_server := (cleanup_tick cfg E (loop_server l)).2;
         waiting := waiting l; replies := replies l |}
  end.

Definition overlapped (cfg : Config) (ts : list Turn) (l : Loop) : Loop :=
  foldl (fun l t => turn cfg t l) l ts.

(** Two creations whose handlers both reach the await of the launch before
    either launch settles. *)
Definition two_at_once (E1 E2 : Env) (meta1 meta2 : option Metadata)
  : list Turn :=
  [Arrives E1 (PostCreate meta1); Arrives E2 (PostCreate meta2);
   Settles 0; Settles 0].

(** Four creations one after the other, from the empty registry. *)
Definition four_creates : list (Env * Action) :=
  map (fun u => (at_time 0 u 1, Http (PostCreate None))) ["a"; "b"; "c"; "d"].


(** A world in which the page is 10010 characters long. *)
Definition long_page : Env := {|
  clock_sweep := 0; clock_create := 0; clock_touch := 0;
  clock_reply := fun _ => 0%Z;
  uuid := "0000"; uptime := uptime quiet;
  launch := launch quiet; newPage := newPage quiet;
  page_close := page_close quiet; browser_close := browser_close quiet;
  setViewport := setViewport quiet; goto := goto quiet;
  page_title := page_title quiet; page_url := page_url quiet;
  page_content := fun _ => Ok (String.concat "" (repeat "0123456789" 1001));
  page_click := page_click quiet; click_and_wait := click_and_wait quiet;
  waitForSelector := waitForSelector quiet; sleep := sleep quiet;
  page_screenshot := page_screenshot quiet;
  sharp_jpeg_base64 := sharp_jpeg_base64 quiet;
  page_evaluate := page_evaluate quiet;
|}.

(** ** Ids in the path of a request (index.js)

    [browserServerRequest] pastes the session id the caller gave into the
    url as it is.  The shell, [curl] and the router of the server each read
    some characters in their own way (a question mark ends the path, a
    percent sign starts an escape, a dollar sign starts an expansion), so a
    path built from such an id reaches another route or another session
    than the tool handler means.  A plain id stands for itself: it is not
    empty and made of letters, digits, [-] and [_] only.  The statements
    about tools that are called with an id of the caller ask for a plain
    one; the ids the server issues, [ses_] and a uuid, are plain. *)
Definition is_id_char (c : Ascii.ascii) : bool :=
  let n := Ascii.nat_of_ascii c in
  bool_decide (48 ≤ n ≤ 57 ∨ 65 ≤ n ≤ 90 ∨ 97 ≤ n ≤ 122 ∨ n = 45 ∨ n = 95).

Fixpoint all_id_chars (s : string) : bool :=
  match s with
  | EmptyString => true
  | String c rest => is_id_char c && all_id_chars rest
  end.

Definition plain_id (id : string) : bool :=
  match id with
  | EmptyString => false
  | String _ _ => all_id_chars id
  end.

(** ** The sweep and a request that overlaps it (browser-server.js)

    The loop of [cleanupExpiredSessions] awaits [destroySession], which
    awaits [session.browser.close()].  [sweep_to_await] is one turn of the
    loop up to that await, [sweep_from_await] is the rest of the sweep from
    the moment the browser has closed. *)

(** [destroySession] of a session that is there, up to the call of
    [browser.close]. *)
Definition destroySession_begin (E : Env) (session : SessionData) : M unit :=
  close_pages E (pages session) ;;
  emit (EvBrowserClose (browser session)).

(** [destroySession] from the moment [browser.close] has settled. *)
Definition destroySession_resume (E : Env) (sessionId : string)
    (session : SessionData) : M bool :=
  try_catch
    (lift (browser_close E (browser session)))
    (fun msg =>
       console_error ("[SESSION] Error destroying session " +:+ sessionId
                      +:+ ": " +:+ msg)) ;;
  sessions_delete sessionId ;;
  n <- sessions_size ;;
  console_log ("[SESSION] Destroyed: " +:+ sessionId
               +:+ " | Remaining: " +:+ pretty n) ;;
  ret true.

(** The turn of the loop for [sessionId], a session that is there, up to
    the await of [browser.close]. *)
Definition sweep_to_await (E : Env) (now : Z) (sessionId : string)
    (session : SessionData) : M unit :=
  console_log ("[CLEANUP] Expiring session: " +:+ sessionId
               +:+ " (idle for "
               +:+ pretty (round_seconds (now - lastAccessed session))
               +:+ "s)") ;;
  destroySession_begin E session.

(** The rest of the sweep: the end of that [destroySession], the ids still
    to do, and the callback of [setInterval] around it. *)
Definition sweep_from_await (E : Env) (now : Z) (sessionId : string)
    (session : SessionData) (rest : list string) (collected : nat) : M unit :=
  destroySession_resume E sessionId session ;;
  destroy_each E now rest ;;
  if decide (0 < collected)%nat then
    console_log ("[CLEANUP] Removed " +:+ pretty collected
                 +:+ " expired session(s)")
  else ret tt.

Definition undefined_lastAccessed : string :=
  "Cannot read properties of undefined (reading 'lastAccessed')".

(** Three sessions that have all been idle since time 0. *)
Definition three_idle : Server :=
  registry [session_at "ses_a" 1 [10] 0; session_at "ses_b" 2 [20] 0;
            session_at "ses_c" 3 [] 0].

(** * Proofs *)

(** ** Monad and map facts *)

Ltac munfold :=
  unfold bind, ret, throw, try_catch, lift, emit, console_log, console_error,
    sessions_size, sessions_get, sessions_set, sessions_delete,
    sessions_entries, mutate, json, fail_with in *.

Lemma size_alter (f : SessionData → SessionData) k (m : gmap string SessionData) :
  size (alter f k m) = size m.
Proof. by rewrite <- !(size_dom (D := gset string)), dom_alter_L. Qed.

Lemma try_catch_fail_with (c : M Response) code st :
  try_catch c (fail_with code) st
  = (Ok match (c st).1 with
        | Ok resp => resp
        | Throw msg => {| status_code := code; body := BError msg |}
        end,
     (c st).2).
Proof. unfold try_catch, fail_with, ret. by destruct (c st) as [[resp|msg] st']. Qed.

Lemma close_pages_run E ps st :
  close_pages E ps st
  = (Ok tt, {| sessions := sessions st;
               trace := trace st ++ concat (map (page_teardown E) ps) |}).
Proof.
  revert st. induction ps as [|p ps IH]; intros st; simpl.
  - munfold. rewrite app_nil_r. by destruct st.
  - unfold page_teardown at 1. munfold. simpl.
    destruct (page_close E p) as [[]|msg]; simpl; rewrite IH; simpl;
      by rewrite <- ?app_assoc.
Qed.

Lemma destroySession_absent E sessionId st :
  sessions st !! sessionId = None →
  destroySession E sessionId st = (Ok false, st).
Proof. intros H. unfold destroySession. munfold. by rewrite H. Qed.

Lemma destroySession_live E sessionId session st :
  sessions st !! sessionId = Some session →
  destroySession E sessionId st
  = (Ok true,
     {| sessions := delete sessionId (sessions st);
        trace := trace st
                 ++ teardown E sessionId session
                      (size (delete sessionId (sessions st))) |}).
Proof.
  intros H. unfold destroySession, teardown, browser_teardown.
  unfold bind at 1, sessions_get at 1. rewrite H.
  unfold bind at 1, try_catch at 1, bind at 1. rewrite close_pages_run.
  munfold. simpl.
  destruct (browser_close E (browser session)) as [[]|msg]; simpl;
    by rewrite <- ?app_assoc.
Qed.

Lemma foldr_delete_delete (m : gmap string SessionData) k ks :
  foldr delete (delete k m) ks = delete k (foldr delete m ks).
Proof.
  induction ks as [|j ks IH]; simpl; [done|].
  by rewrite IH, delete_delete.
Qed.

Lemma destroy_each_run E now ids st :
  NoDup ids →
  Forall (fun k => is_Some (sessions st !! k)) ids →
  destroy_each E now ids st
  = (Ok tt, {| sessions := foldr delete (sessions st) ids;
               trace := trace st ++ expire_events E now ids (sessions st) |}).
Proof.
  revert st. induction ids as [|k ids IH]; intros st Hnd Hin; simpl.
  - munfold. rewrite app_nil_r. by destruct st.
  - apply NoDup_cons in Hnd as [Hk Hnd].
    apply Forall_cons in Hin as [[session Hs] Hin].
    unfold bind at 1, sessions_get at 1. rewrite Hs.
    unfold bind at 1, console_log at 1, emit at 1.
    unfold bind at 1.
    erewrite destroySession_live by (simpl; exact Hs).
    rewrite IH; simpl; [|done|].
    + by rewrite foldr_delete_delete, <- !app_assoc.
    + rewrite Forall_forall in Hin |- *. intros j Hj.
      rewrite lookup_delete_ne; [by apply Hin|]. by intros ->.
Qed.

Lemma expired_ids_NoDup cfg now (m : gmap string SessionData) :
  NoDup (expired_ids cfg now m).
Proof.
  unfold expired_ids. eapply sublist_NoDup; [apply (NoDup_fst_map_to_list m)|].
  apply fmap_sublist, sublist_filter.
Qed.

Lemma elem_of_expired_ids cfg now (m : gmap string SessionData) k :
  k ∈ expired_ids cfg now m
  ↔ ∃ session, m !! k = Some session
               ∧ (SESSION_TIMEOUT_MS cfg < now - lastAccessed session)%Z.
Proof.
  unfold expired_ids. rewrite list_elem_of_fmap. split.
  - intros [[k' session] [-> [Hexp Hin]%list_elem_of_filter]].
    apply elem_of_map_to_list in Hin. by exists session.
  - intros (session & Hs & Hexp). exists (k, session). split; [done|].
    apply list_elem_of_filter. split; [done|]. by apply elem_of_map_to_list.
Qed.

Lemma foldr_delete_expired cfg now (m : gmap string SessionData) :
  foldr delete m (expired_ids cfg now m)
  = filter (fun kv => ¬ is_expired cfg now kv) m.
Proof.
  apply map_eq. intros k. apply option_eq. intros session.
  rewrite lookup_foldr_delete_Some, map_lookup_filter_Some,
    elem_of_expired_ids. unfold is_expired. simpl. split.
  - intros [Hnot Hs]. split; [done|]. intros Hexp. apply Hnot. by exists session.
  - intros [Hs Hfresh]. split; [|done]. intros (s' & Hs' & Hexp).
    by simplify_eq.
Qed.

Lemma cleanupExpiredSessions_run cfg E st :
  let ids := expired_ids cfg (clock_sweep E) (sessions st) in
  cleanupExpiredSessions cfg E st
  = (Ok (length ids),
     {| sessions := filter (fun kv => ¬ is_expired cfg (clock_sweep E) kv)
                      (sessions st);
        trace := trace st
                 ++ expire_events E (clock_sweep E) ids (sessions st) |}).
Proof.
  cbv zeta. unfold cleanupExpiredSessions.
  unfold bind at 1, sessions_entries at 1.
  fold (expired_ids cfg (clock_sweep E) (sessions st)).
  unfold bind at 1. rewrite destroy_each_run.
  - unfold ret. by rewrite foldr_delete_expired.
  - apply expired_ids_NoDup.
  - apply Forall_forall. intros k (session & Hs & _)%elem_of_expired_ids. eauto.
Qed.

Lemma deleted_keys_teardown E k session n :
  deleted_keys (teardown E k session n) = [k].
Proof.
  unfold teardown, deleted_keys, browser_teardown. rewrite !omap_app.
  assert (omap (fun e => match e with EvMapDelete key => Some key | _ => None end)
            (concat (map (page_teardown E) (pages session))) = []) as ->.
  { induction (pages session) as [|p ps IH]; simpl; [done|].
    rewrite omap_app, IH. unfold page_teardown.
    by destruct (page_close E p). }
  by destruct (browser_close E (browser session)).
Qed.

Lemma deleted_keys_expire_events E now ids (m : gmap string SessionData) :
  NoDup ids →
  Forall (fun k => is_Some (m !! k)) ids →
  deleted_keys (expire_events E now ids m) = ids.
Proof.
  revert m. induction ids as [|k ids IH]; intros m Hnd Hin; simpl; [done|].
  apply NoDup_cons in Hnd as [Hk Hnd].
  apply Forall_cons in Hin as [[session Hs] Hin]. rewrite Hs.
  unfold deleted_keys in *. simpl. rewrite omap_app.
  fold (deleted_keys (teardown E k session (size (delete k m)))).
  rewrite deleted_keys_teardown, IH; [done|done|].
  rewrite Forall_forall in Hin |- *. intros j Hj.
  rewrite lookup_delete_ne; [by apply Hin|]. by intros ->.
Qed.

(** ** Preservation of the invariants *)

Section Keeps.
Context (cfg : Config).

Lemma wf_subseteq (m m' : gmap string SessionData) :
  m' ⊆ m → wf cfg m → wf cfg m'.
Proof.
  intros Hsub [Hcap Hpages]. split.
  - apply map_subseteq_size in Hsub. lia.
  - intros k session Hk. eapply Hpages, lookup_weaken; eauto.
Qed.

Lemma wf_alter (m : gmap string SessionData) k s' :
  length (pages s') ≤ 1 → wf cfg m → wf cfg (alter (fun _ => s') k m).
Proof.
  intros Hs' [Hcap Hpages]. split.
  - by rewrite size_alter.
  - intros j session [(_ & s & _ & ->)|[_ Hj]]%lookup_alter_Some; [done|].
    by eapply Hpages.
Qed.

Lemma keeps_ret {A} (a : A) (φ : A → Prop) : φ a → keeps cfg (ret a) φ.
Proof. intros Ha st Hwf. simpl. split; [done|]. by intros ? [= <-]. Qed.

Lemma keeps_throw {A} msg (φ : A → Prop) : keeps cfg (throw msg) φ.
Proof. intros st Hwf. simpl. split; [done|]. by intros ? [=]. Qed.

Lemma keeps_lift {A} (r : Res A) : keeps cfg (lift r) (fun _ => True).
Proof. intros st Hwf. simpl. by split. Qed.

Lemma keeps_emit e : keeps cfg (emit e) (fun _ => True).
Proof. intros st Hwf. simpl. by split. Qed.

Lemma keeps_weaken {A} (c : M A) (φ ψ : A → Prop) :
  keeps cfg c φ → (∀ a, φ a → ψ a) → keeps cfg c ψ.
Proof.
  intros Hc Himp st Hwf. destruct (Hc st Hwf) as [H1 H2]. split; [done|].
  intros a Ha. by apply Himp, H2.
Qed.

Lemma keeps_bind {A B} (c : M A) (k : A → M B) (φ : A → Prop) (ψ : B → Prop) :
  keeps cfg c φ → (∀ a, φ a → keeps cfg (k a) ψ) → keeps cfg (bind c k) ψ.
Proof.
  intros Hc Hk st Hwf. unfold bind. destruct (Hc st Hwf) as [H1 H2].
  destruct (c st) as [[a|msg] st']; simpl in *.
  - apply Hk; [by apply H2|done].
  - split; [done|]. by intros ? [=].
Qed.

Lemma keeps_try_catch {A} (c : M A) (h : string → M A) (φ : A → Prop) :
  keeps cfg c φ → (∀ msg, keeps cfg (h msg) φ) → keeps cfg (try_catch c h) φ.
Proof.
  intros Hc Hh st Hwf. unfold try_catch. destruct (Hc st Hwf) as [H1 H2].
  destruct (c st) as [[a|msg] st']; simpl in *.
  - split; [done|]. intros ? [= <-]. by apply H2.
  - by apply Hh.
Qed.

Lemma keeps_size : keeps cfg sessions_size (fun _ => True).
Proof. intros st Hwf. simpl. by split. Qed.

Lemma keeps_get k :
  keeps cfg (sessions_get k)
    (fun o => ∀ session, o = Some session → length (pages session) ≤ 1).
Proof.
  intros st Hwf. simpl. split; [done|]. intros ? [= <-] session Hs.
  eapply wf_pages; eauto.
Qed.

Lemma keeps_entries :
  keeps cfg sessions_entries
    (Forall (fun kv : string * SessionData => length (pages kv.2) ≤ 1)).
Proof.
  intros st Hwf. simpl. split; [done|]. intros ? [= <-].
  apply Forall_forall. intros [k session] Hin%elem_of_map_to_list.
  eapply wf_pages; eauto.
Qed.

Lemma keeps_mutate k s' :
  length (pages s') ≤ 1 → keeps cfg (mutate k s') (fun _ => True).
Proof. intros Hs' st Hwf. simpl. split; [|done]. by apply wf_alter. Qed.

Lemma keeps_json b :
  reported_ok {| status_code := 200; body := b |} → keeps cfg (json b) reported_ok.
Proof. intros. by apply keeps_ret. Qed.

Lemma keeps_fail_with code msg : keeps cfg (fail_with code msg) reported_ok.
Proof. by apply keeps_ret. Qed.

Lemma keeps_destroySession E k : keeps cfg (destroySession E k) (fun _ => True).
Proof.
  intros st Hwf. split; [|done].
  destruct (sessions st !! k) as [session|] eqn:Hk.
  - rewrite (destroySession_live _ _ _ _ Hk). simpl.
    eapply wf_subseteq; [apply delete_subseteq|done].
  - by rewrite (destroySession_absent _ _ _ Hk).
Qed.

Lemma keeps_cleanupExpiredSessions E :
  keeps cfg (cleanupExpiredSessions cfg E) (fun _ => True).
Proof.
  intros st Hwf. split; [|done]. rewrite cleanupExpiredSessions_run. simpl.
  eapply wf_subseteq; [apply map_filter_subseteq|done].
Qed.

Lemma keeps_getSession E k :
  keeps cfg (getSession E k) (fun session => length (pages session) ≤ 1).
Proof.
  unfold getSession. eapply keeps_bind; [apply keeps_get|].
  intros [session|] Ho; [|apply keeps_throw].
  specialize (Ho _ eq_refl).
  eapply keeps_bind; [by apply keeps_mutate|]. intros _ _. by apply keeps_ret.
Qed.

Lemma keeps_getCurrentPage E k session :
  length (pages session) ≤ 1 →
  keeps cfg (getCurrentPage E k session)
    (fun ps => length (pages ps.2) ≤ 1).
Proof.
  intros Hs. unfold getCurrentPage.
  destruct (last (pages session)) as [page|] eqn:Hlast;
    [by apply keeps_ret|].
  apply last_None in Hlast.
  eapply keeps_bind; [apply keeps_emit|]. intros _ _.
  eapply keeps_bind; [apply keeps_lift|]. intros page _.
  assert (length (pages (push_page page session)) ≤ 1)
    by (simpl; rewrite Hlast; simpl; lia).
  eapply keeps_bind; [by apply keeps_mutate|]. intros _ _. by apply keeps_ret.
Qed.

End Keeps.

Section KeepsRoutes.
Context (cfg : Config) (E : Env).

Lemma wf_insert_new (m : gmap string SessionData) k session :
  wf cfg m → size m < MAX_SESSIONS cfg → pages session = [] →
  wf cfg (<[k := session]> m).
Proof.
  intros [Hcap Hpages] Hlt Hnil. split.
  - rewrite map_size_insert. destruct (m !! k); simpl; lia.
  - intros j s' [[_ <-]|[_ Hj]]%lookup_insert_Some.
    + rewrite Hnil. simpl. lia.
    + by eapply Hpages.
Qed.

(** The part of [createSession] after the admission check. *)
Lemma createSession_admitted meta st :
  size (sessions st) < MAX_SESSIONS cfg →
  createSession cfg E meta st
  = match launch E with
    | Ok b =>
        let sessionId := "ses_" +:+ uuid E in
        let sessionData :=
          {| sess_id := sessionId; browser := b; pages := [];
             lastAccessed := clock_create E; currentUrl := None;
             metadata := default [] meta |} in
        (Ok sessionData,
         {| sessions := <[sessionId := sessionData]> (sessions st);
            trace := trace st
              ++ [EvLaunch; EvMapSet sessionId;
                  EvConsoleLog ("[SESSION] Created: " +:+ sessionId
                    +:+ " | Total: "
                    +:+ pretty (size (<[sessionId := sessionData]> (sessions st))))] |})
    | Throw msg =>
        (Throw msg, {| sessions := sessions st; trace := trace st ++ [EvLaunch] |})
    end.
Proof.
  intros Hlt. unfold createSession.
  unfold bind at 1, sessions_size at 1.
  destruct (decide (MAX_SESSIONS cfg ≤ size (sessions st))) as [?|_]; [lia|].
  munfold. simpl. destruct (launch E) as [b|msg]; simpl; [|done].
  by rewrite <- !app_assoc.
Qed.

(** At capacity: sweep, then give up or go on as if admitted. *)
Lemma createSession_at_capacity meta st :
  MAX_SESSIONS cfg ≤ size (sessions st) →
  createSession cfg E meta st
  = let swept := (cleanupExpiredSessions cfg E st).2 in
    if decide (MAX_SESSIONS cfg ≤ size (sessions swept))
    then (Throw (limit_reached cfg), swept)
    else createSession cfg E meta swept.
Proof.
  intros Hge. cbv zeta. unfold createSession at 1.
  unfold bind at 1, sessions_size at 1.
  destruct (decide (MAX_SESSIONS cfg ≤ size (sessions st))) as [_|?]; [|lia].
  unfold bind at 1, bind at 1.
  destruct (cleanupExpiredSessions cfg E st) as [[n|msg] swept] eqn:Hsweep.
  2: { by rewrite cleanupExpiredSessions_run in Hsweep. }
  simpl. unfold bind at 1, sessions_size at 1.
  destruct (decide (MAX_SESSIONS cfg ≤ size (sessions swept))) as [Hfull|Hroom].
  - unfold throw, limit_reached. reflexivity.
  - rewrite createSession_admitted by lia. munfold. simpl.
    destruct (launch E) as [b|msg]; simpl; [|done].
    by rewrite <- !app_assoc.
Qed.

Lemma keeps_createSession meta :
  keeps cfg (createSession cfg E meta) (fun _ => True).
Proof.
  assert (∀ st, wf cfg (sessions st) →
                size (sessions st) < MAX_SESSIONS cfg →
                wf cfg (sessions (createSession cfg E meta st).2)) as Hroom.
  { intros st Hwf Hlt. rewrite createSession_admitted by done.
    destruct (launch E); simpl; [|done]. by apply wf_insert_new. }
  intros st Hwf. split; [|done].
  destruct (decide (MAX_SESSIONS cfg ≤ size (sessions st))) as [Hge|Hlt].
  - rewrite createSession_at_capacity by done. cbv zeta.
    pose proof (keeps_cleanupExpiredSessions cfg E st Hwf) as [Hswept _].
    case_decide; [done|]. apply Hroom; [done|lia].
  - apply Hroom; [done|lia].
Qed.

Ltac keeps_simple :=
  repeat first
    [ apply keeps_fail_with
    | apply keeps_json; exact I
    | apply keeps_ret; exact I
    | eapply keeps_bind; [apply keeps_lift | intros ? _]
    | eapply keeps_bind; [apply keeps_emit | intros ? _]
    | eapply keeps_bind; [apply keeps_size | intros ? _] ].

Lemma keeps_route_health : keeps cfg (route_health cfg E) reported_ok.
Proof. unfold route_health. keeps_simple. Qed.

Lemma keeps_route_create meta : keeps cfg (route_create cfg E meta) reported_ok.
Proof.
  unfold route_create. apply keeps_try_catch; [|intros; keeps_simple].
  eapply keeps_bind; [apply keeps_createSession|]. intros; keeps_simple.
Qed.

Lemma keeps_route_info id : keeps cfg (route_info E id) reported_ok.
Proof.
  unfold route_info. apply keeps_try_catch; [|intros; keeps_simple].
  eapply keeps_bind; [apply keeps_getSession|]. intros session Hs.
  by apply keeps_json.
Qed.

Lemma keeps_route_navigate id url waitUntil :
  keeps cfg (route_navigate E id url waitUntil) reported_ok.
Proof.
  unfold route_navigate. apply keeps_try_catch; [|intros; keeps_simple].
  eapply keeps_bind; [apply keeps_getSession|]. intros session Hs.
  eapply keeps_bind; [by apply keeps_getCurrentPage|]. intros [page s2] Hs2.
  simpl in *. keeps_simple.
  eapply keeps_bind; [by apply keeps_mutate|]. intros _ _. keeps_simple.
Qed.

Lemma keeps_route_click id selector wait :
  keeps cfg (route_click E id selector wait) reported_ok.
Proof.
  unfold route_click. apply keeps_try_catch; [|intros; keeps_simple].
  eapply keeps_bind; [apply keeps_getSession|]. intros session Hs.
  eapply keeps_bind; [by apply keeps_getCurrentPage|]. intros [page s2] Hs2.
  simpl in *.
  eapply keeps_bind; [destruct wait; apply keeps_lift|]. intros _ _.
  keeps_simple.
  eapply keeps_bind; [by apply keeps_mutate|]. intros _ _. keeps_simple.
Qed.

Lemma keeps_route_screenshot id w h d sel :
  keeps cfg (route_screenshot E id w h d sel) reported_ok.
Proof.
  unfold route_screenshot. apply keeps_try_catch; [|intros; keeps_simple].
  eapply keeps_bind; [apply keeps_getSession|]. intros session Hs.
  eapply keeps_bind; [by apply keeps_getCurrentPage|]. intros [page s2] Hs2.
  simpl in *. keeps_simple.
  eapply keeps_bind;
    [destruct (truthy sel); [apply keeps_lift|by apply keeps_ret]|].
  intros _ _.
  eapply keeps_bind; [case_decide; [apply keeps_lift|by apply keeps_ret]|].
  intros _ _. keeps_simple.
Qed.

Lemma keeps_route_evaluate id script :
  keeps cfg (route_evaluate E id script) reported_ok.
Proof.
  unfold route_evaluate. apply keeps_try_catch; [|intros; keeps_simple].
  eapply keeps_bind; [apply keeps_getSession|]. intros session Hs.
  eapply keeps_bind; [by apply keeps_getCurrentPage|]. intros [page s2] Hs2.
  keeps_simple.
Qed.

Lemma keeps_route_content id : keeps cfg (route_content E id) reported_ok.
Proof.
  unfold route_content. apply keeps_try_catch; [|intros; keeps_simple].
  eapply keeps_bind; [apply keeps_getSession|]. intros session Hs.
  eapply keeps_bind; [by apply keeps_getCurrentPage|]. intros [page s2] Hs2.
  keeps_simple.
Qed.

Lemma keeps_route_delete id : keeps cfg (route_delete E id) reported_ok.
Proof.
  unfold route_delete. apply keeps_try_catch; [|intros; keeps_simple].
  eapply keeps_bind; [apply keeps_destroySession|]. intros; keeps_simple.
Qed.

Lemma keeps_route_sessions : keeps cfg (route_sessions E) reported_ok.
Proof.
  unfold route_sessions. eapply keeps_bind; [apply keeps_entries|].
  intros entries Hall. apply keeps_json. unfold reported_ok. simpl.
  apply Forall_fmap. eapply Forall_impl; [exact Hall|]. by intros [k s].
Qed.

Lemma keeps_handle r : keeps cfg (handle cfg E r) reported_ok.
Proof.
  destruct r; simpl;
    auto using keeps_route_health, keeps_route_create, keeps_route_info,
      keeps_route_navigate, keeps_route_click, keeps_route_screenshot,
      keeps_route_evaluate, keeps_route_content, keeps_route_delete,
      keeps_route_sessions.
Qed.

Lemma keeps_cleanup_tick : keeps cfg (cleanup_tick cfg E) (fun _ => True).
Proof.
  unfold cleanup_tick.
  eapply keeps_bind; [apply keeps_cleanupExpiredSessions|]. intros n _.
  case_decide; [apply keeps_emit|by apply keeps_ret].
Qed.

Lemma wf_step a st : wf cfg (sessions st) → wf cfg (sessions (step cfg E a st)).
Proof.
  intros Hwf. destruct a as [r|]; simpl.
  - by apply keeps_handle.
  - by apply keeps_cleanup_tick.
Qed.

End KeepsRoutes.

Lemma wf_initial cfg : wf cfg (sessions initial).
Proof.
  split; simpl.
  - rewrite map_size_empty. lia.
  - intros k session. by rewrite lookup_empty.
Qed.

Lemma wf_run cfg l st :
  wf cfg (sessions st) → wf cfg (sessions (run cfg l st)).
Proof.
  revert st. induction l as [|[E a] l IH]; intros st Hwf; simpl; [done|].
  by apply IH, wf_step.
Qed.

(** ** Destroying a session *)

(** C5: [destroySession] on a live session closes every page in order
    (logging a failed close and going on with the next page), then closes
    the browser, then deletes the map entry; the entry is deleted whatever
    the closes answer, and the call returns [true]. *)
Theorem destroy_teardown_order E sessionId session st :
  sessions st !! sessionId = Some session →
  ∃ st',
    destroySession E sessionId st = (Ok true, st')
    ∧ sessions st' = delete sessionId (sessions st)
    ∧ sessions st' !! sessionId = None
    ∧ trace st'
      = trace st
        ++ concat (map (page_teardown E) (pages session))
        ++ browser_teardown E sessionId (browser session)
        ++ [EvMapDelete sessionId;
            EvConsoleLog ("[SESSION] Destroyed: " +:+ sessionId
                          +:+ " | Remaining: "
                          +:+ pretty (size (delete sessionId (sessions st))))].
Proof.
  intros Hlive. eexists. split; [by apply destroySession_live|]. simpl.
  split_and!; [done|apply lookup_delete_eq|done].
Qed.

Lemma destroy_teardown_order_witness :
  sessions (registry [session_at "ses_a" 1 [10; 11] 0]) !! "ses_a"
  = Some (session_at "ses_a" 1 [10; 11] 0)
  ∧ ∃ st',
      destroySession stuck "ses_a" (registry [session_at "ses_a" 1 [10; 11] 0])
      = (Ok true, st')
      ∧ sessions st' = delete "ses_a" (sessions (registry [session_at "ses_a" 1 [10; 11] 0]))
      ∧ sessions st' !! "ses_a" = None
      ∧ trace st'
        = [EvPageClose 10;
           EvConsoleError "[SESSION] Error closing page: Protocol error: Target closed";
           EvPageClose 11;
           EvConsoleError "[SESSION] Error closing page: Protocol error: Target closed";
           EvBrowserClose 1;
           EvConsoleError "[SESSION] Error destroying session ses_a: Browser crashed";
           EvMapDelete "ses_a";
           EvConsoleLog "[SESSION] Destroyed: ses_a | Remaining: 0"].
Proof.
  split; [vm_compute; reflexivity|].
  apply (destroy_teardown_order stuck "ses_a" (session_at "ses_a" 1 [10; 11] 0)
           (registry [session_at "ses_a" 1 [10; 11] 0])).
  vm_compute. reflexivity.
Defined.

(** C6: [destroySession] never throws; it returns [true] on a live id and
    [false] on an absent one, leaving the server as it was; called again
    right after, it returns [false]. *)
Theorem destroy_idempotent E E' sessionId st :
  ∃ b st',
    destroySession E sessionId st = (Ok b, st')
    ∧ (is_Some (sessions st !! sessionId) → b = true)
    ∧ (sessions st !! sessionId = None → b = false ∧ st' = st)
    ∧ destroySession E' sessionId st' = (Ok false, st').
Proof.
  destruct (sessions st !! sessionId) as [session|] eqn:Hs.
  - eexists _, _. split; [by apply destroySession_live|].
    split_and!; [done|done|].
    apply destroySession_absent. simpl. apply lookup_delete_eq.
  - exists false, st. split; [by apply destroySession_absent|].
    split_and!; [by intros [? [=]]|done|by apply destroySession_absent].
Qed.

Lemma destroy_idempotent_witness :
  ∃ b st',
    destroySession stuck "ses_a" (registry [session_at "ses_a" 1 [10] 0])
    = (Ok b, st')
    ∧ b = true
    ∧ destroySession quiet "ses_a" st' = (Ok false, st').
Proof.
  destruct (destroy_idempotent stuck quiet "ses_a"
              (registry [session_at "ses_a" 1 [10] 0]))
    as (b & st' & H1 & H2 & _ & H4).
  exists b, st'. split_and!; [exact H1| |exact H4].
  apply H2. vm_compute. eexists. reflexivity.
Defined.

(** ** Health *)

(** C8: the health route never fails and leaves the server untouched; it
    answers with the number of live sessions (field [sessions]), the
    configured limit and the process uptime, next to [status: 'ok'].  The
    number of sessions is the number of ids that are looked up successfully,
    and after any run it is at most the limit it is reported with. *)
Theorem health_never_fails cfg E st :
  handle cfg E GetHealth st
  = (Ok {| status_code := 200;
           body := BHealth "ok" (size (sessions st)) (MAX_SESSIONS cfg)
                     (uptime E) |},
     st)
  ∧ size (sessions st) = size (dom (sessions st))
  ∧ (∀ l, st = run cfg l initial → size (sessions st) ≤ MAX_SESSIONS cfg).
Proof.
  split_and!.
  - reflexivity.
  - symmetry. apply size_dom.
  - intros l ->. apply wf_run, wf_initial.
Qed.

Lemma health_never_fails_witness :
  (handle CONFIG quiet GetHealth (run CONFIG six_creates initial)).1
  = Ok {| status_code := 200; body := BHealth "ok" 5 5 1.5%float |}
  ∧ size (sessions (run CONFIG six_creates initial)) ≤ 5.
Proof.
  destruct (health_never_fails CONFIG quiet (run CONFIG six_creates initial))
    as (Hrun & _ & Hbound).
  split.
  - rewrite Hrun. vm_compute. reflexivity.
  - apply (Hbound six_creates). reflexivity.
Defined.

(** ** Session info *)

(** C10: the info route first stamps the session with the time of the
    lookup and then reports [idleTime] as the distance from a second clock
    reading to that stamp: the answer does not depend on how long the
    session had been idle, it is [0] when both readings agree, and it is at
    most [d] when the second reading is at most [d] later. *)
Theorem info_resets_idle_clock E id session st :
  sessions st !! id = Some session →
  let touched := set_lastAccessed (clock_touch E) session in
  let idle := (clock_reply E (sess_id session) - clock_touch E)%Z in
  route_info E id st
  = (Ok {| status_code := 200;
           body := BInfo {| info_id := sess_id session;
                            pagesCount := length (pages session);
                            info_currentUrl := currentUrl session;
                            info_lastAccessed := clock_touch E;
                            idleTime := idle;
                            info_metadata := metadata session |} |},
     {| sessions := alter (fun _ => touched) id (sessions st);
        trace := trace st |})
  ∧ alter (fun _ => touched) id (sessions st) !! id = Some touched
  ∧ (clock_reply E (sess_id session) = clock_touch E → idle = 0%Z)
  ∧ (∀ d, (clock_touch E ≤ clock_reply E (sess_id session) ≤ clock_touch E + d)%Z →
          (0 ≤ idle ≤ d)%Z).
Proof.
  intros Hlive touched idle. split_and!.
  - unfold route_info, getSession. munfold. rewrite Hlive. reflexivity.
  - by rewrite lookup_alter_eq, Hlive.
  - unfold idle. lia.
  - unfold idle. lia.
Qed.

Lemma info_resets_idle_clock_witness :
  sessions (registry [session_at "ses_a" 1 [] (-299999)]) !! "ses_a"
  = Some (session_at "ses_a" 1 [] (-299999))
  ∧ (route_info quiet "ses_a" (registry [session_at "ses_a" 1 [] (-299999)])).1
    = Ok {| status_code := 200;
            body := BInfo {| info_id := "ses_a"; pagesCount := 0;
                             info_currentUrl := None; info_lastAccessed := 0;
                             idleTime := 0; info_metadata := [] |} |}.
Proof.
  split; [vm_compute; reflexivity|].
  destruct (info_resets_idle_clock quiet "ses_a"
              (session_at "ses_a" 1 [] (-299999))
              (registry [session_at "ses_a" 1 [] (-299999)]))
    as [H _]; [vm_compute; reflexivity|].
  rewrite H. reflexivity.
Defined.

(** ** Navigation *)

(** C7: navigating a live session always answers; when [page.goto] fails,
    the answer is the 500 error carrying the message of the failure and
    [currentUrl] is what it was; [currentUrl] changes only when [page.goto]
    succeeded, and then to the requested url. *)
Theorem navigate_failure_keeps_currentUrl E id url waitUntil session st :
  sessions st !! id = Some session →
  ∃ resp st' session',
    route_navigate E id url waitUntil st = (Ok resp, st')
    ∧ sessions st' !! id = Some session'
    ∧ (∀ page msg,
         current_page E session = Ok page →
         setViewport E page 800 600 = Ok tt →
         goto E page url (default "networkidle2" waitUntil) = Throw msg →
         resp = {| status_code := 500; body := BError msg |}
         ∧ currentUrl session' = currentUrl session)
    ∧ (currentUrl session' ≠ currentUrl session →
       ∃ page,
         current_page E session = Ok page
         ∧ goto E page url (default "networkidle2" waitUntil) = Ok tt
         ∧ currentUrl session' = url).
Proof.
  intros Hlive. unfold route_navigate, getSession, getCurrentPage, current_page.
  munfold. rewrite Hlive. simpl.
  destruct (last (pages session)) as [page|] eqn:Hlast; simpl.
  - destruct (setViewport E page 800 600) as [[]|e1] eqn:Hview; simpl.
    + destruct (goto E page url (default "networkidle2" waitUntil))
        as [[]|e2] eqn:Hgoto; simpl.
      * destruct (page_title E page); simpl; eexists _, _, _;
          (split; [reflexivity|]); simpl;
          rewrite lookup_alter_eq, lookup_alter_eq, Hlive; simpl;
          (split; [reflexivity|]); simpl;
          (split; [intros ? ? [= <-] _ ?; congruence|]);
          intros _; exists page; done.
      * eexists _, _, _. split; [reflexivity|]. simpl.
        rewrite lookup_alter_eq, Hlive. simpl. split; [reflexivity|]. simpl.
        split; [|done]. intros ? ? [= <-] _ ?. split; [congruence|done].
    + eexists _, _, _. split; [reflexivity|]. simpl.
      rewrite lookup_alter_eq, Hlive. simpl. split; [reflexivity|]. simpl.
      split; [|done]. intros ? ? [= <-] ?. congruence.
  - destruct (newPage E (browser session)) as [page|e0] eqn:Hnew; simpl.
    + destruct (setViewport E page 800 600) as [[]|e1] eqn:Hview; simpl.
      * destruct (goto E page url (default "networkidle2" waitUntil))
          as [[]|e2] eqn:Hgoto; simpl.
        -- destruct (page_title E page); simpl; eexists _, _, _;
             (split; [reflexivity|]); simpl;
             rewrite !lookup_alter_eq, Hlive; simpl;
             (split; [reflexivity|]); simpl;
             (split; [intros ? ? [= <-] _ ?; congruence|]);
             intros _; exists page; done.
        -- eexists _, _, _. split; [reflexivity|]. simpl.
           rewrite !lookup_alter_eq, Hlive. simpl. split; [reflexivity|]. simpl.
           split; [|done]. intros ? ? [= <-] _ ?. split; [congruence|done].
      * eexists _, _, _. split; [reflexivity|]. simpl.
        rewrite !lookup_alter_eq, Hlive. simpl. split; [reflexivity|]. simpl.
        split; [|done]. intros ? ? [= <-] ?. congruence.
    + eexists _, _, _. split; [reflexivity|]. simpl.
      rewrite lookup_alter_eq, Hlive. simpl. split; [reflexivity|]. simpl.
      split; [|done]. intros ? ? [=].
Qed.

Lemma navigate_failure_keeps_currentUrl_witness :
  ∃ st' session',
    route_navigate offline "ses_a" (Some "https://example.org") None
      (registry [visited])
    = (Ok {| status_code := 500;
             body := BError "Navigation timeout of 30000 ms exceeded" |}, st')
    ∧ sessions st' !! "ses_a" = Some session'
    ∧ currentUrl session' = Some "https://example.com".
Proof.
  destruct (navigate_failure_keeps_currentUrl offline "ses_a"
              (Some "https://example.org") None visited (registry [visited]))
    as (resp & st' & session' & Hrun & Hlook & Hfail & _);
    [vm_compute; reflexivity|].
  destruct (Hfail 10 "Navigation timeout of 30000 ms exceeded")
    as [-> Hurl]; [reflexivity|reflexivity|reflexivity|].
  exists st', session'. split_and!; [exact Hrun|exact Hlook|].
  rewrite Hurl. reflexivity.
Defined.

(** ** The sweep *)

(** C4: a sweep at time [now] never fails; it collects, from the registry
    as it is when the sweep starts, the ids whose idle time [now -
    lastAccessed] exceeds the timeout, then deletes exactly those: a session
    idle for more than the timeout is gone, any other session is kept as it
    was, and the map deletions performed are the collected ids. *)
Theorem sweep_evicts_exactly_expired cfg E st :
  let now := clock_sweep E in
  let ids := expired_ids cfg now (sessions st) in
  ∃ st' events,
    cleanupExpiredSessions cfg E st = (Ok (length ids), st')
    ∧ trace st' = trace st ++ events
    ∧ deleted_keys events = ids
    ∧ (∀ k, k ∈ ids ↔
            ∃ session, sessions st !! k = Some session
                       ∧ (SESSION_TIMEOUT_MS cfg < now - lastAccessed session)%Z)
    ∧ (∀ k session, sessions st !! k = Some session →
         sessions st' !! k
         = if decide (SESSION_TIMEOUT_MS cfg < now - lastAccessed session)%Z
           then None else Some session)
    ∧ (∀ k, sessions st !! k = None → sessions st' !! k = None).
Proof.
  intros now ids. eexists _, _.
  split; [apply cleanupExpiredSessions_run|]. simpl.
  split_and!.
  - reflexivity.
  - apply deleted_keys_expire_events; [apply expired_ids_NoDup|].
    apply Forall_forall. intros k (session & Hs & _)%elem_of_expired_ids. eauto.
  - intros k. apply elem_of_expired_ids.
  - intros k session Hs. case_decide as Hexp.
    + apply map_lookup_filter_None. right. intros s' Hs' Hfresh.
      apply Hfresh. unfold is_expired. simpl. by simplify_eq.
    + apply map_lookup_filter_Some. split; [done|]. by unfold is_expired.
  - intros k Hk. apply map_lookup_filter_None. by left.
Qed.

Lemma sweep_evicts_exactly_expired_witness :
  ∃ st',
    cleanupExpiredSessions CONFIG (at_time 1000000 "0000" 1) below_at_above
    = (Ok 1, st')
    ∧ sessions st' !! "ses_below" = Some (session_at "ses_below" 1 [] 700001)
    ∧ sessions st' !! "ses_at" = Some (session_at "ses_at" 2 [20] 700000)
    ∧ sessions st' !! "ses_above" = None.
Proof.
  destruct (sweep_evicts_exactly_expired CONFIG (at_time 1000000 "0000" 1)
              below_at_above)
    as (st' & events & Hrun & _ & _ & _ & Hkeep & _).
  exists st'. split_and!.
  - exact Hrun.
  - apply (Hkeep "ses_below" (session_at "ses_below" 1 [] 700001)).
    vm_compute. reflexivity.
  - apply (Hkeep "ses_at" (session_at "ses_at" 2 [20] 700000)).
    vm_compute. reflexivity.
  - apply (Hkeep "ses_above" (session_at "ses_above" 3 [30] 699999)).
    vm_compute. reflexivity.
Defined.

(** ** Admission *)

Lemma getSession_absent E sessionId st :
  sessions st !! sessionId = None →
  getSession E sessionId st = (Throw (not_found sessionId), st).
Proof. intros H. unfold getSession. munfold. by rewrite H. Qed.


Lemma sweep_nothing_expired cfg E st :
  (∀ k session, sessions st !! k = Some session →
                (clock_sweep E - lastAccessed session ≤ SESSION_TIMEOUT_MS cfg)%Z) →
  cleanupExpiredSessions cfg E st = (Ok 0, st).
Proof.
  intros Hfresh. rewrite cleanupExpiredSessions_run.
  assert (expired_ids cfg (clock_sweep E) (sessions st) = []) as ->.
  { destruct (expired_ids cfg (clock_sweep E) (sessions st)) as [|k ids] eqn:Hids;
      [done|].
    assert (k ∈ expired_ids cfg (clock_sweep E) (sessions st)) as Hk
        by (rewrite Hids; left).
    apply elem_of_expired_ids in Hk as (session & Hs & Hexp).
    specialize (Hfresh _ _ Hs). lia. }
  simpl. rewrite app_nil_r, map_filter_id; [by destruct st|].
  intros k session Hs. unfold is_expired. simpl. specialize (Hfresh _ _ Hs). lia.
Qed.






(** ** Capacity *)

(** When every handler runs to its end before the next one starts: after
    any run of requests and timer ticks from the empty registry
    the number of sessions is at most [MAX_SESSIONS]; and when
    [createSession] stores a session although the registry held
    [MAX_SESSIONS] records or more, the sweep it ran first had collected,
    and removed, at least one expired session. *)
Theorem registry_never_exceeds_capacity cfg l :
  size (sessions (run cfg l initial)) ≤ MAX_SESSIONS cfg
  ∧ (∀ E meta st,
       MAX_SESSIONS cfg ≤ size (sessions st) →
       expired_ids cfg (clock_sweep E) (sessions st) = [] →
       createSession cfg E meta st = (Throw (limit_reached cfg), st))
  ∧ ∀ E meta st created st',
      MAX_SESSIONS cfg ≤ size (sessions st) →
      createSession cfg E meta st = (Ok created, st') →
      ∃ k session,
        sessions st !! k = Some session
        ∧ (SESSION_TIMEOUT_MS cfg < clock_sweep E - lastAccessed session)%Z
        ∧ k ∈ expired_ids cfg (clock_sweep E) (sessions st)
        ∧ sessions st'
          = <[sess_id created := created]>
              (filter (fun kv => ¬ is_expired cfg (clock_sweep E) kv)
                 (sessions st)).
Proof.
  split; [apply wf_run, wf_initial|]. split.
  { intros E meta st Hfull Hnone.
    rewrite createSession_at_capacity by done. cbv zeta.
    rewrite sweep_nothing_expired; [simpl; by case_decide|].
    intros k session Hs.
    destruct (decide (SESSION_TIMEOUT_MS cfg
                      < clock_sweep E - lastAccessed session)%Z) as [Hexp|]; [|lia].
    assert (k ∈ expired_ids cfg (clock_sweep E) (sessions st)) as Hk
      by (apply elem_of_expired_ids; eauto).
    rewrite Hnone in Hk. by apply elem_of_nil in Hk. }
  intros E meta st created st' Hfull Hrun.
  rewrite createSession_at_capacity in Hrun by done. cbv zeta in Hrun.
  case_decide as Hswept; [done|].
  rewrite createSession_admitted in Hrun by lia.
  rewrite cleanupExpiredSessions_run in Hrun, Hswept. simpl in Hrun, Hswept.
  destruct (launch E) as [b|msg]; [|done]. simpl in Hrun.
  injection Hrun as <- <-. simpl.
  destruct (expired_ids cfg (clock_sweep E) (sessions st)) as [|k ids] eqn:Hids.
  - exfalso. apply Hswept. rewrite map_filter_id; [done|].
    intros j session Hs Hexp.
    assert (j ∈ expired_ids cfg (clock_sweep E) (sessions st)) as Hj
      by (apply elem_of_expired_ids; eauto).
    rewrite Hids in Hj. by apply elem_of_nil in Hj.
  - assert (k ∈ expired_ids cfg (clock_sweep E) (sessions st)) as Hk
      by (rewrite Hids; left).
    pose proof Hk as (session & Hs & Hexp)%elem_of_expired_ids.
    exists k, session. rewrite <- Hids. done.
Qed.

Lemma registry_never_exceeds_capacity_witness :
  size (sessions (run CONFIG six_creates initial)) ≤ 5
  ∧ ∃ k session,
      sessions full_one_expired !! k = Some session
      ∧ (300000 < 1000000 - lastAccessed session)%Z.
Proof.
  destruct (registry_never_exceeds_capacity CONFIG six_creates)
    as (Hsize & _ & Hcreate).
  split; [exact Hsize|].
  destruct (Hcreate (at_time 1000000 "new" 9) None full_one_expired
              (session_at "ses_new" 9 [] 1000000)
              (createSession CONFIG (at_time 1000000 "new" 9) None
                 full_one_expired).2)
    as (k & session & Hs & Hexp & _); [vm_compute; lia|vm_compute; reflexivity|].
  exists k, session. split; [exact Hs|exact Hexp].
Defined.

(** ** Creations that overlap *)

Lemma createSession_cut cfg E meta st :
  createSession cfg E meta st
  = (createSession_begin cfg E ;; createSession_resume E meta) st.
Proof.
  unfold createSession, createSession_begin, createSession_resume, bind.
  unfold sessions_size at 1 3. simpl.
  case_decide; simpl; [|done].
  destruct (cleanupExpiredSessions cfg E st) as [[c|msg] st2]; [|done].
  unfold sessions_size. simpl. case_decide; simpl; done.
Qed.

Lemma route_create_cut cfg E meta st :
  route_create cfg E meta st
  = (o <- route_create_begin cfg E ;;
     match o with
     | Some resp => ret resp
     | None => route_create_resume E meta
     end) st.
Proof.
  unfold route_create, route_create_begin, route_create_resume, try_catch.
  unfold bind at 1. rewrite createSession_cut. unfold bind.
  destruct (createSession_begin cfg E st) as [[[]|msg] st1]; simpl; done.
Qed.

(** A creation whose launch settles before anything else happens is the
    creation of [step]. *)
Lemma turn_create_in_one_piece cfg E meta l :
  waiting l = [] →
  loop_server (overlapped cfg [Arrives E (PostCreate meta); Settles 0] l)
  = step cfg E (Http (PostCreate meta)) (loop_server l)
  ∧ waiting (overlapped cfg [Arrives E (PostCreate meta); Settles 0] l) = [].
Proof.
  intros Hw. simpl. rewrite route_create_cut. unfold bind.
  destruct (route_create_begin cfg E (loop_server l)) as [[[resp|]|msg] st1]
    ; simpl; rewrite ?Hw; simpl; [done| |done].
  by destruct (route_create_resume E meta st1) as [[resp|msg] st2].
Qed.

Lemma createSession_begin_room cfg E st :
  size (sessions st) < MAX_SESSIONS cfg →
  createSession_begin cfg E st
  = (Ok tt, {| sessions := sessions st; trace := trace st ++ [EvLaunch] |}).
Proof.
  intros Hroom. unfold createSession_begin, bind, sessions_size. simpl.
  case_decide; [lia|]. reflexivity.
Qed.

Lemma route_create_resume_launched E meta b st :
  launch E = Ok b →
  ∃ tr,
    route_create_resume E meta st
    = (Ok {| status_code := 200;
             body := BCreated ("ses_" +:+ uuid E) (default [] meta) |},
       {| sessions := <["ses_" +:+ uuid E := fresh_record E b (default [] meta)]>
                        (sessions st);
          trace := tr |}).
Proof.
  intros Hlaunch. unfold route_create_resume, createSession_resume, try_catch,
    bind, lift. rewrite Hlaunch. simpl. eexists. reflexivity.
Qed.

Lemma turn_create_suspends cfg E meta l :
  size (sessions (loop_server l)) < MAX_SESSIONS cfg →
  turn cfg (Arrives E (PostCreate meta)) l
  = {| loop_server := {| sessions := sessions (loop_server l);
                         trace := trace (loop_server l) ++ [EvLaunch] |};
       waiting := waiting l ++ [{| suspended_env := E;
                                   suspended_metadata := meta |}];
       replies := replies l |}.
Proof.
  intros Hroom. unfold turn, route_create_begin, try_catch, bind.
  by rewrite createSession_begin_room.
Qed.

Lemma turn_settles cfg k s b l :
  waiting l !! k = Some s →
  launch (suspended_env s) = Ok b →
  ∃ tr,
    turn cfg (Settles k) l
    = {| loop_server :=
           {| sessions :=
                <["ses_" +:+ uuid (suspended_env s)
                  := fresh_record (suspended_env s) b
                       (default [] (suspended_metadata s))]>
                  (sessions (loop_server l));
              trace := tr |};
         waiting := delete k (waiting l);
         replies := replies l
                    ++ [ {| status_code := 200;
                            body := BCreated ("ses_" +:+ uuid (suspended_env s))
                                      (default [] (suspended_metadata s)) |} ] |}.
Proof.
  intros Hk Hlaunch. unfold turn. rewrite Hk.
  destruct (route_create_resume_launched (suspended_env s)
              (suspended_metadata s) b (loop_server l) Hlaunch) as [tr ->].
  by exists tr.
Qed.

Lemma overlapped_cons cfg t ts l :
  overlapped cfg (t :: ts) l = overlapped cfg ts (turn cfg t l).
Proof. reflexivity. Qed.

(** C2: two creations that overlap.  With room for one more session, two
    [POST /session/create] handlers that both reach the await of
    [puppeteer.launch] before either browser is there both pass the check
    of [sessions.size], both store their session and both answer 200: the
    second one stores its session in a registry that already holds
    [MAX_SESSIONS] records, without any sweep, and the registry ends with
    [MAX_SESSIONS + 1] records. *)
Theorem overlapping_creates_exceed_capacity cfg E1 E2 meta1 meta2 b1 b2 st :
  size (sessions st) + 1 = MAX_SESSIONS cfg →
  launch E1 = Ok b1 →
  launch E2 = Ok b2 →
  uuid E1 ≠ uuid E2 →
  sessions st !! ("ses_" +:+ uuid E1) = None →
  sessions st !! ("ses_" +:+ uuid E2) = None →
  let turns := two_at_once E1 E2 meta1 meta2 in
  let before_last := overlapped cfg (take 3 turns) (at_rest st) in
  let l := overlapped cfg turns (at_rest st) in
  size (sessions (loop_server before_last)) = MAX_SESSIONS cfg
  ∧ sessions (loop_server l)
    = <["ses_" +:+ uuid E2 := fresh_record E2 b2 (default [] meta2)]>
        (<["ses_" +:+ uuid E1 := fresh_record E1 b1 (default [] meta1)]>
           (sessions st))
  ∧ size (sessions (loop_server l)) = MAX_SESSIONS cfg + 1
  ∧ waiting l = []
  ∧ replies l
    = [ {| status_code := 200;
           body := BCreated ("ses_" +:+ uuid E1) (default [] meta1) |};
        {| status_code := 200;
           body := BCreated ("ses_" +:+ uuid E2) (default [] meta2) |} ].
Proof.
  intros Hroom Hb1 Hb2 Hne Hnew1 Hnew2. cbv zeta.
  assert ("ses_" +:+ uuid E2 ≠ "ses_" +:+ uuid E1) as Hids.
  { intros Heq. apply Hne. symmetry. by apply (inj (String.append "ses_")) in Heq. }
  unfold two_at_once. cbn [take]. rewrite !overlapped_cons.
  rewrite (turn_create_suspends cfg E1) by (simpl; lia).
  rewrite (turn_create_suspends cfg E2) by (simpl; lia).
  cbn [at_rest waiting replies loop_server sessions trace app].
  match goal with
  | |- context [turn cfg (Settles 0) ?l1] =>
      destruct (turn_settles cfg 0 {| suspended_env := E1;
                                      suspended_metadata := meta1 |} b1 l1)
        as [tr1 ->]; [reflexivity|exact Hb1|]
  end.
  cbn [delete list_delete suspended_env suspended_metadata loop_server
       sessions waiting replies overlapped foldl app].
  split.
  { rewrite map_size_insert_None by done. lia. }
  match goal with
  | |- context [turn cfg (Settles 0) ?l2] =>
      destruct (turn_settles cfg 0 {| suspended_env := E2;
                                      suspended_metadata := meta2 |} b2 l2)
        as [tr2 ->]; [reflexivity|exact Hb2|]
  end.
  cbn [delete list_delete suspended_env suspended_metadata loop_server
       sessions waiting replies app].
  split_and!; try done.
  rewrite !map_size_insert_None; [lia|done|].
  by rewrite lookup_insert_ne.
Qed.

Lemma overlapping_creates_exceed_capacity_witness :
  size (sessions (run CONFIG four_creates initial)) = 4
  ∧ MAX_SESSIONS CONFIG = 5
  ∧ size (sessions (loop_server
             (overlapped CONFIG
                (two_at_once (at_time 0 "e" 1) (at_time 0 "f" 1) None None)
                (at_rest (run CONFIG four_creates initial))))) = 6.
Proof.
  split; [vm_compute; reflexivity|]. split; [reflexivity|].
  destruct (overlapping_creates_exceed_capacity CONFIG
              (at_time 0 "e" 1) (at_time 0 "f" 1) None None 1 1
              (run CONFIG four_creates initial))
    as (_ & _ & Hsize & _);
    [vm_compute; reflexivity|reflexivity|reflexivity|vm_compute; discriminate
    |vm_compute; reflexivity|vm_compute; reflexivity|].
  exact Hsize.
Defined.

(** The sixth creation in a row is refused, and five sessions remain. *)
Example sixth_create_refused :
  let five := run CONFIG (take 5 six_creates) initial in
  size (sessions five) = 5
  ∧ (handle CONFIG (at_time 0 "f" 1) (PostCreate None) five).1
    = Ok {| status_code := 500;
            body := BError "Maximum session limit reached (5)" |}
  ∧ size (sessions (run CONFIG six_creates initial)) = 5.
Proof. vm_compute. done. Qed.

(** ** Pages *)

Lemma createSession_no_pages cfg E meta st created st' :
  createSession cfg E meta st = (Ok created, st') → pages created = [].
Proof.
  intros Hrun.
  destruct (decide (MAX_SESSIONS cfg ≤ size (sessions st))) as [Hfull|Hroom].
  - rewrite createSession_at_capacity in Hrun by done. cbv zeta in Hrun.
    case_decide; [done|].
    rewrite createSession_admitted in Hrun by lia.
    destruct (launch E); [|done]. by injection Hrun as <- _.
  - rewrite createSession_admitted in Hrun by lia.
    destruct (launch E); [|done]. by injection Hrun as <- _.
Qed.

Lemma getCurrentPage_appends_when_empty E k session st page session' st' :
  getCurrentPage E k session st = (Ok (page, session'), st') →
  (last (pages session) = Some page ∧ session' = session ∧ st' = st)
  ∨ (pages session = [] ∧ pages session' = [page]).
Proof.
  unfold getCurrentPage.
  destruct (last (pages session)) as [p|] eqn:Hlast.
  - intros [= <- <- <-]. by left.
  - apply last_None in Hlast. munfold. simpl.
    destruct (newPage E (browser session)); [|done].
    intros [= <- <- _]. right. simpl. by rewrite Hlast.
Qed.

Lemma step_ignores_max_pages n cfg E a st :
  step (with_max_pages n cfg) E a st = step cfg E a st.
Proof. destruct cfg. destruct a as [[]|]; reflexivity. Qed.

Lemma run_ignores_max_pages n cfg l st :
  run (with_max_pages n cfg) l st = run cfg l st.
Proof.
  revert st. induction l as [|[E a] l IH]; intros st; simpl; [done|].
  by rewrite step_ignores_max_pages, IH.
Qed.

(** C9: in every state reached from the empty registry each session holds
    at most one page, so fewer than [MAX_PAGES_PER_SESSION] when that is
    above one (it is 10); the info and list routes report a [pagesCount] of
    0 or 1; a session is created without pages and [getCurrentPage] adds a
    page only to a session that has none; and the value of
    [MAX_PAGES_PER_SESSION] has no influence on any run. *)
Theorem at_most_one_page cfg l :
  let st := run cfg l initial in
  (∀ k session, sessions st !! k = Some session →
     length (pages session) ≤ 1
     ∧ (1 < MAX_PAGES_PER_SESSION cfg →
        length (pages session) < MAX_PAGES_PER_SESSION cfg))
  ∧ (∀ E id resp st' info,
       route_info E id st = (Ok resp, st') → body resp = BInfo info →
       pagesCount info ≤ 1)
  ∧ (∀ E resp st' infos count,
       route_sessions E st = (Ok resp, st') → body resp = BList infos count →
       Forall (fun info => pagesCount info ≤ 1) infos)
  ∧ (∀ E meta s created s',
       createSession cfg E meta s = (Ok created, s') → pages created = [])
  ∧ (∀ E k session s page session' s',
       getCurrentPage E k session s = (Ok (page, session'), s') →
       pages session' = pages session
       ∨ (pages session = [] ∧ pages session' = [page]))
  ∧ (∀ n, run (with_max_pages n cfg) l initial = st).
Proof.
  intros st.
  assert (wf cfg (sessions st)) as Hwf by apply wf_run, wf_initial.
  split_and!.
  - intros k session Hs. pose proof (wf_pages _ _ Hwf _ _ Hs). lia.
  - intros E id resp st' info Hrun Hbody.
    destruct (keeps_route_info cfg E id st Hwf) as [_ Hok].
    rewrite Hrun in Hok. specialize (Hok _ eq_refl).
    unfold reported_ok in Hok. by rewrite Hbody in Hok.
  - intros E resp st' infos count Hrun Hbody.
    destruct (keeps_route_sessions cfg E st Hwf) as [_ Hok].
    rewrite Hrun in Hok. specialize (Hok _ eq_refl).
    unfold reported_ok in Hok. by rewrite Hbody in Hok.
  - intros E meta s created s'. apply createSession_no_pages.
  - intros E k session s page session' s' Hrun.
    apply getCurrentPage_appends_when_empty in Hrun as [(_ & -> & _)|?]; auto.
  - intros n. apply run_ignores_max_pages.
Qed.

Lemma at_most_one_page_witness :
  ∃ session,
    sessions (run CONFIG browsing initial) !! "ses_a" = Some session
    ∧ pages session = [10]
    ∧ length (pages session) ≤ 1
    ∧ length (pages session) < 10.
Proof.
  eexists. split; [vm_compute; reflexivity|]. split; [reflexivity|].
  destruct (at_most_one_page CONFIG browsing) as [Hpages _].
  edestruct (Hpages "ses_a") as [Hone Hbound]; [vm_compute; reflexivity|].
  split; [exact Hone|]. apply Hbound. vm_compute. lia.
Defined.

(** ** The ephemeral wrappers of the bridge *)

Section Shrinks.

Lemma shrinks_ret {A} (a : A) : shrinks (ret a).
Proof. by intros st. Qed.

Lemma shrinks_throw {A} msg : shrinks (@throw A msg).
Proof. by intros st. Qed.

Lemma shrinks_lift {A} (r : Res A) : shrinks (lift r).
Proof. by intros st. Qed.

Lemma shrinks_emit e : shrinks (emit e).
Proof. by intros st. Qed.

Lemma shrinks_get k : shrinks (sessions_get k).
Proof. by intros st. Qed.

Lemma shrinks_mutate k s' : shrinks (mutate k s').
Proof. intros st. simpl. by rewrite dom_alter_L. Qed.

Lemma shrinks_bind {A B} (c : M A) (k : A → M B) :
  shrinks c → (∀ a, shrinks (k a)) → shrinks (bind c k).
Proof.
  intros Hc Hk st. unfold bind. specialize (Hc st).
  destruct (c st) as [[a|msg] st1]; simpl in *; [|done].
  etrans; [apply Hk|done].
Qed.

Lemma shrinks_try_catch {A} (c : M A) (h : string → M A) :
  shrinks c → (∀ msg, shrinks (h msg)) → shrinks (try_catch c h).
Proof.
  intros Hc Hh st. unfold try_catch. specialize (Hc st).
  destruct (c st) as [[a|msg] st1]; simpl in *; [done|].
  etrans; [apply Hh|done].
Qed.

Lemma shrinks_getSession E k : shrinks (getSession E k).
Proof.
  unfold getSession. apply shrinks_bind; [apply shrinks_get|].
  intros [session|]; [|apply shrinks_throw].
  apply shrinks_bind; [apply shrinks_mutate|]. intros. apply shrinks_ret.
Qed.

Lemma shrinks_getCurrentPage E k session : shrinks (getCurrentPage E k session).
Proof.
  unfold getCurrentPage. destruct (last (pages session)); [apply shrinks_ret|].
  apply shrinks_bind; [apply shrinks_emit|]. intros _.
  apply shrinks_bind; [apply shrinks_lift|]. intros page.
  apply shrinks_bind; [apply shrinks_mutate|]. intros. apply shrinks_ret.
Qed.

Ltac shrinks_auto :=
  repeat first
    [ apply shrinks_ret | apply shrinks_throw | apply shrinks_lift
    | apply shrinks_emit | apply shrinks_mutate | apply shrinks_getSession
    | apply shrinks_getCurrentPage
    | apply shrinks_try_catch; [|intros ?]
    | apply shrinks_bind; [|intros ?]
    | match goal with |- shrinks (if ?b then _ else _) => destruct b end ].

Lemma shrinks_route_navigate E id url waitUntil :
  shrinks (route_navigate E id url waitUntil).
Proof. unfold route_navigate, json, fail_with. shrinks_auto. Qed.

Lemma shrinks_route_content E id : shrinks (route_content E id).
Proof. unfold route_content, json, fail_with. shrinks_auto. Qed.

Lemma shrinks_route_screenshot E id w h d sel :
  shrinks (route_screenshot E id w h d sel).
Proof. unfold route_screenshot, json, fail_with. shrinks_auto. Qed.

End Shrinks.

Lemma handle_never_throws cfg E r st :
  handle cfg E r st = (Ok (reply cfg E r st), (handle cfg E r st).2).
Proof.
  unfold reply.
  destruct r; simpl;
    try (unfold route_create, route_info, route_navigate, route_click,
           route_screenshot, route_evaluate, route_content, route_delete;
         by rewrite try_catch_fail_with).
  - reflexivity.
  - reflexivity.
Qed.

Lemma browserServerRequest_delivered cfg E r st :
  browserServerRequest cfg (delivered E) r st
  = (Ok (body (reply cfg E r st)), (handle cfg E r st).2).
Proof.
  unfold browserServerRequest, delivered. simpl. unfold bind.
  by rewrite handle_never_throws.
Qed.

Lemma route_delete_dom E id st :
  dom (sessions (route_delete E id st).2) = dom (sessions st) ∖ {[id]}.
Proof.
  unfold route_delete. rewrite try_catch_fail_with. simpl. unfold bind.
  destruct (sessions st !! id) as [session|] eqn:Hs.
  - rewrite (destroySession_live _ _ _ _ Hs). simpl. by rewrite dom_delete_L.
  - rewrite (destroySession_absent _ _ _ Hs). simpl.
    apply not_elem_of_dom in Hs. set_solver.
Qed.

(** Which keys [createSession] leaves in the registry. *)
Lemma createSession_dom cfg E meta st :
  match createSession cfg E meta st with
  | (Ok created, st') =>
      sess_id created = "ses_" +:+ uuid E
      ∧ dom (sessions st') ⊆ {["ses_" +:+ uuid E]} ∪ dom (sessions st)
  | (Throw _, st') => dom (sessions st') ⊆ dom (sessions st)
  end.
Proof.
  assert (∀ s, size (sessions s) < MAX_SESSIONS cfg →
               dom (sessions s) ⊆ dom (sessions st) →
               match createSession cfg E meta s with
               | (Ok created, st') =>
                   sess_id created = "ses_" +:+ uuid E
                   ∧ dom (sessions st') ⊆ {["ses_" +:+ uuid E]} ∪ dom (sessions st)
               | (Throw _, st') => dom (sessions st') ⊆ dom (sessions st)
               end) as Hroom.
  { intros s Hlt Hsub. rewrite createSession_admitted by done.
    destruct (launch E) as [b|msg]; simpl; [|done].
    split; [done|]. rewrite dom_insert_L. set_solver. }
  destruct (decide (MAX_SESSIONS cfg ≤ size (sessions st))) as [Hfull|Hlt].
  - rewrite createSession_at_capacity by done. cbv zeta.
    assert (dom (sessions (cleanupExpiredSessions cfg E st).2) ⊆ dom (sessions st))
      as Hswept.
    { rewrite cleanupExpiredSessions_run. simpl.
      apply subseteq_dom, map_filter_subseteq. }
    case_decide; [done|]. apply Hroom; [lia|done].
  - apply Hroom; [lia|done].
Qed.

(** What the create route answers, and which keys it leaves. *)
Lemma route_create_dom cfg E meta st :
  let after := (route_create cfg E meta st).2 in
  let answer := body (reply cfg E (PostCreate meta) st) in
  (resp_sessionId answer = Some ("ses_" +:+ uuid E)
   ∧ dom (sessions after) ⊆ {["ses_" +:+ uuid E]} ∪ dom (sessions st))
  ∨ (resp_sessionId answer = None
     ∧ dom (sessions after) ⊆ dom (sessions st)).
Proof.
  cbv zeta. unfold reply. simpl. unfold route_create.
  rewrite try_catch_fail_with. simpl. unfold bind.
  pose proof (createSession_dom cfg E meta st) as Hdom.
  destruct (createSession cfg E meta st) as [[created|msg] st']; simpl.
  - left. destruct Hdom as [-> Hdom]. done.
  - right. done.
Qed.

(** When every request is answered, whatever the answers say, the
    navigate tool returns and leaves no session behind that was not in the
    registry before. *)
Lemma navigate_cleans_up_when_answered cfg args E1 E2 E3 E4 st :
  truthy (arg_sessionId args) = false →
  ∃ result st',
    call_tool (puppeteer_navigate cfg args (delivered E1) (delivered E2)
                 (delivered E3) (delivered E4)) st
    = (Ok result, st')
    ∧ dom (sessions st') ⊆ dom (sessions st).
Proof.
  intros Htemp. unfold call_tool, puppeteer_navigate, try_catch.
  rewrite Htemp. simpl. unfold bind.
  rewrite browserServerRequest_delivered. simpl.
  rewrite browserServerRequest_delivered.
  rewrite browserServerRequest_delivered.
  rewrite browserServerRequest_delivered. simpl.
  eexists _, _. split; [reflexivity|].
  rewrite route_delete_dom.
  pose proof (route_create_dom cfg E1 (Some temporary) st) as Hcreate.
  cbv zeta in Hcreate.
  set (answer := body (reply cfg E1 (PostCreate (Some temporary)) st)) in *.
  set (st1 := (route_create cfg E1 (Some temporary) st).2) in *.
  set (id := template (resp_sessionId answer)).
  pose proof (shrinks_route_navigate E2 id (arg_url args)
                (Some (or_string (arg_waitUntil args) "networkidle2")) st1) as H2.
  pose proof (shrinks_route_content E3 id
                (route_navigate E2 id (arg_url args)
                   (Some (or_string (arg_waitUntil args) "networkidle2")) st1).2)
    as H3.
  destruct Hcreate as [[Hid Hdom]|[Hid Hdom]].
  - assert (id = "ses_" +:+ uuid E1) as Hnew by (unfold id; by rewrite Hid).
    rewrite <- Hnew in Hdom. set_solver.
  - set_solver.
Qed.

(** The same for the screenshot tool, which asks for nothing when the url
    is missing. *)
Lemma screenshot_cleans_up_when_answered cfg args E1 E2 E3 E4 st :
  truthy (arg_sessionId args) = false →
  ∃ result st',
    call_tool (puppeteer_screenshot cfg args (delivered E1) (delivered E2)
                 (delivered E3) (delivered E4)) st
    = (Ok result, st')
    ∧ dom (sessions st') ⊆ dom (sessions st).
Proof.
  intros Htemp. unfold call_tool, puppeteer_screenshot, try_catch.
  rewrite Htemp. simpl. unfold bind.
  destruct (truthy (arg_url args)); [|by eexists _, _].
  repeat (rewrite browserServerRequest_delivered; simpl).
  eexists _, _. split; [reflexivity|].
  rewrite route_delete_dom.
  pose proof (route_create_dom cfg E1 (Some temporary) st) as Hcreate.
  cbv zeta in Hcreate.
  set (answer := body (reply cfg E1 (PostCreate (Some temporary)) st)) in *.
  set (st1 := (route_create cfg E1 (Some temporary) st).2) in *.
  set (id := template (resp_sessionId answer)).
  pose proof (shrinks_route_navigate E2 id (arg_url args)
                (Some "networkidle2") st1) as H2.
  pose proof (shrinks_route_screenshot E3 id
                (Some (or_number (arg_width args) 800))
                (Some (or_number (arg_height args) 600))
                (Some (or_number (arg_delay args) 0))
                (arg_waitForSelector args)
                (route_navigate E2 id (arg_url args) (Some "networkidle2") st1).2)
    as H3.
  destruct Hcreate as [[Hid Hdom]|[Hid Hdom]].
  - assert (id = "ses_" +:+ uuid E1) as Hnew by (unfold id; by rewrite Hid).
    rewrite <- Hnew in Hdom. set_solver.
  - set_solver.
Qed.

Lemma alter_const_insert (m : gmap string SessionData) k v x :
  m !! k = Some v → alter (fun _ => x) k m = <[k := x]> m.
Proof.
  intros Hk. apply map_eq. intros j. rewrite lookup_alter, lookup_insert.
  case_decide; [|done]. subst. by rewrite Hk.
Qed.

Lemma alter_const_twice (m : gmap string SessionData) k x y :
  alter (fun _ => x) k (alter (fun _ => y) k m) = alter (fun _ => x) k m.
Proof. by rewrite alter_alter_eq. Qed.

Lemma deleted_keys_snoc tr e :
  (∀ key, e ≠ EvMapDelete key) → deleted_keys (tr ++ [e]) = deleted_keys tr.
Proof.
  intros He. unfold deleted_keys. rewrite omap_app. simpl.
  destruct e; try by rewrite app_nil_r. by destruct (He key).
Qed.

(** Navigating a live session changes nothing but the record of that
    session, and of it neither the id nor the metadata. *)
Lemma route_navigate_live E id url waitUntil session st :
  sessions st !! id = Some session →
  ∃ session',
    sessions (route_navigate E id url waitUntil st).2
    = <[id := session']> (sessions st)
    ∧ sess_id session' = sess_id session
    ∧ metadata session' = metadata session
    ∧ deleted_keys (trace (route_navigate E id url waitUntil st).2)
      = deleted_keys (trace st).
Proof.
  intros Hlive. unfold route_navigate. rewrite try_catch_fail_with.
  unfold getSession, getCurrentPage. munfold. rewrite Hlive. simpl.
  destruct (last (pages session)) as [page|]; simpl.
  - destruct (setViewport E page 800 600) as [[]|]; simpl;
      [destruct (goto E page url (default "networkidle2" waitUntil)) as [[]|];
       simpl; [destruct (page_title E page); simpl|]|];
      eexists;
      (split;
       [rewrite ?alter_const_twice; by erewrite alter_const_insert
       |split_and!; reflexivity]).
  - destruct (newPage E (browser session)) as [page|]; simpl;
      [destruct (setViewport E page 800 600) as [[]|]; simpl;
       [destruct (goto E page url (default "networkidle2" waitUntil)) as [[]|];
        simpl; [destruct (page_title E page); simpl|]|]|];
      eexists;
      (split;
       [rewrite ?alter_const_twice; by erewrite alter_const_insert
       |split_and!; [reflexivity|reflexivity|by apply deleted_keys_snoc]]).
Qed.

Lemma bind_ok {A B} (c : M A) (k : A → M B) st a st1 :
  c st = (Ok a, st1) → bind c k st = k a st1.
Proof. intros H. unfold bind. by rewrite H. Qed.

Lemma bind_throw {A B} (c : M A) (k : A → M B) st msg st1 :
  c st = (Throw msg, st1) → bind c k st = (Throw msg, st1).
Proof. intros H. unfold bind. by rewrite H. Qed.

(** The creation of the temporary session is answered; the navigation
    that follows is not. *)
Lemma create_answered cfg E b st :
  size (sessions st) < MAX_SESSIONS cfg →
  launch E = Ok b →
  ∃ st1 created,
    browserServerRequest cfg (delivered E) (PostCreate (Some temporary)) st
    = (Ok (BCreated ("ses_" +:+ uuid E) temporary), st1)
    ∧ sessions st1 !! ("ses_" +:+ uuid E) = Some created
    ∧ metadata created = temporary
    ∧ deleted_keys (trace st1) = deleted_keys (trace st).
Proof.
  intros Hroom Hlaunch. rewrite browserServerRequest_delivered.
  unfold reply. simpl. unfold route_create. rewrite try_catch_fail_with.
  unfold bind. rewrite createSession_admitted by done. rewrite Hlaunch. simpl.
  eexists _, _. split_and!; [reflexivity|apply lookup_insert_eq|done|].
  simpl. unfold deleted_keys. rewrite omap_app. simpl. by rewrite app_nil_r.
Qed.

Lemma navigate_not_answered cfg h id url waitUntil msg session st :
  hop_wire h = Lost msg ∨ hop_wire h = ReplyLost msg →
  sessions st !! id = Some session →
  ∃ st' session',
    browserServerRequest cfg h (PostNavigate id url waitUntil) st
    = (Throw ("Browser server request failed: " +:+ msg), st')
    ∧ sessions st' !! id = Some session'
    ∧ metadata session' = metadata session
    ∧ deleted_keys (trace st') = deleted_keys (trace st).
Proof.
  intros [Hwire|Hwire] Hlive; unfold browserServerRequest; rewrite Hwire.
  - by exists st, session.
  - unfold bind. rewrite handle_never_throws. simpl.
    destruct (route_navigate_live (hop_env h) id url waitUntil session st Hlive)
      as (session' & Hmap & _ & Hmeta & Hdel).
    eexists _, session'. split_and!; [reflexivity| |done|done].
    rewrite Hmap. apply lookup_insert_eq.
Qed.

(** C1: the navigate and screenshot tools called without a session id,
    when the registry has room and the browser launches, so that the
    temporary session is created, and the request that follows the creation
    throws ([execSync] or [JSON.parse] fails, whether or not the server
    handled the request): the tool returns the error, no DELETE is sent, and
    the temporary session is still in the registry. *)
Theorem ephemeral_session_survives_lost_request cfg args E1 h2 h3 h4 msg b st :
  truthy (arg_sessionId args) = false →
  truthy (arg_url args) = true →
  size (sessions st) < MAX_SESSIONS cfg →
  launch E1 = Ok b →
  hop_wire h2 = Lost msg ∨ hop_wire h2 = ReplyLost msg →
  ∀ tool,
    tool = puppeteer_navigate cfg args (delivered E1) h2 h3 h4
    ∨ tool = puppeteer_screenshot cfg args (delivered E1) h2 h3 h4 →
    ∃ st' created,
      call_tool tool st
      = (Ok (ToolError ("Error: Browser server request failed: " +:+ msg)), st')
      ∧ sessions st' !! ("ses_" +:+ uuid E1) = Some created
      ∧ metadata created = temporary
      ∧ deleted_keys (trace st') = deleted_keys (trace st).
Proof.
  intros Htemp Hurl Hroom Hlaunch Hwire tool Htool.
  destruct (create_answered cfg E1 b st Hroom Hlaunch)
    as (st1 & created & Hcreate & Hlook1 & Hmeta1 & Hdel1).
  destruct Htool as [-> | ->].
  - destruct (navigate_not_answered cfg h2 ("ses_" +:+ uuid E1) (arg_url args)
                (Some (or_string (arg_waitUntil args) "networkidle2"))
                msg created st1 Hwire Hlook1)
      as (st2 & session2 & Hnav & Hlook2 & Hmeta2 & Hdel2).
    exists st2, session2. split_and!; [|done|congruence|congruence].
    unfold call_tool, try_catch, puppeteer_navigate. rewrite Htemp.
    cbn [negb].
    erewrite bind_ok by (erewrite bind_ok by exact Hcreate; reflexivity).
    cbn [resp_sessionId template default].
    erewrite bind_throw by exact Hnav. reflexivity.
  - destruct (navigate_not_answered cfg h2 ("ses_" +:+ uuid E1) (arg_url args)
                (Some "networkidle2") msg created st1 Hwire Hlook1)
      as (st2 & session2 & Hnav & Hlook2 & Hmeta2 & Hdel2).
    exists st2, session2. split_and!; [|done|congruence|congruence].
    unfold call_tool, try_catch, puppeteer_screenshot. rewrite Htemp, Hurl.
    cbn [negb].
    erewrite bind_throw; [reflexivity|].
    erewrite bind_ok by exact Hcreate.
    cbn [resp_sessionId template default].
    erewrite bind_throw by exact Hnav. reflexivity.
Qed.

Lemma ephemeral_session_survives_lost_request_witness :
  ∃ st' created,
    call_tool (puppeteer_navigate CONFIG just_url (delivered quiet) (lost quiet)
                 (delivered quiet) (delivered quiet)) initial
    = (Ok (ToolError "Error: Browser server request failed: Command failed"), st')
    ∧ sessions st' !! "ses_0000" = Some created
    ∧ metadata created = temporary
    ∧ size (sessions st') = 1.
Proof.
  destruct (ephemeral_session_survives_lost_request CONFIG just_url quiet
              (lost quiet) (delivered quiet) (delivered quiet)
              "Command failed" 1 initial)
    with (tool := puppeteer_navigate CONFIG just_url (delivered quiet)
                    (lost quiet) (delivered quiet) (delivered quiet))
    as (st' & created & Hrun & Hlook & Hmeta & _);
    [reflexivity|reflexivity|vm_compute; lia|reflexivity|left; reflexivity
    |left; reflexivity|].
  exists st', created. split_and!; [exact Hrun|exact Hlook|exact Hmeta|].
  injection Hrun as <-. vm_compute. reflexivity.
Defined.

(** The same when the server did handle the navigation but its reply was
    lost, and when the screenshot request of the screenshot tool is lost. *)
Example ephemeral_session_survives_other_losses :
  let after_navigate :=
    call_tool (puppeteer_navigate CONFIG just_url (delivered quiet)
                 (reply_lost quiet) (delivered quiet) (delivered quiet)) initial in
  let after_screenshot :=
    call_tool (puppeteer_screenshot CONFIG just_url (delivered quiet)
                 (delivered quiet) (lost quiet) (delivered quiet)) initial in
  after_navigate.1
  = Ok (ToolError "Error: Browser server request failed: Command failed")
  ∧ size (sessions after_navigate.2) = 1
  ∧ metadata <$> sessions after_navigate.2 !! "ses_0000" = Some temporary
  ∧ deleted_keys (trace after_navigate.2) = []
  ∧ after_screenshot.1
    = Ok (ToolError "Error: Browser server request failed: Command failed")
  ∧ size (sessions after_screenshot.2) = 1
  ∧ metadata <$> sessions after_screenshot.2 !! "ses_0000" = Some temporary
  ∧ deleted_keys (trace after_screenshot.2) = [].
Proof. vm_compute. done. Qed.

(** With the same answers from Puppeteer and every request answered, even
    by a failed navigation, nothing is left. *)
Example ephemeral_session_destroyed_when_answered :
  sessions (call_tool (puppeteer_navigate CONFIG just_url (delivered quiet)
                         (delivered offline) (delivered quiet)
                         (delivered quiet)) initial).2 = ∅.
Proof. vm_compute. reflexivity. Qed.

(** * Further properties *)

(** * Further properties of the server *)

Section Holds.
Context (Φ : string → SessionData → Prop).

Lemma holds_ret {A} (a : A) (φ : A → Prop) : φ a → holds Φ (ret a) φ.
Proof. intros Ha st HΦ. simpl. split; [done|]. by intros ? [= <-]. Qed.

Lemma holds_throw {A} msg (φ : A → Prop) : holds Φ (throw msg) φ.
Proof. intros st HΦ. simpl. split; [done|]. by intros ? [=]. Qed.

Lemma holds_lift {A} (r : Res A) : holds Φ (lift r) (fun _ => True).
Proof. intros st HΦ. simpl. by split. Qed.

Lemma holds_emit e : holds Φ (emit e) (fun _ => True).
Proof. intros st HΦ. simpl. by split. Qed.

Lemma holds_size : holds Φ sessions_size (fun _ => True).
Proof. intros st HΦ. simpl. by split. Qed.

Lemma holds_entries : holds Φ sessions_entries (fun _ => True).
Proof. intros st HΦ. simpl. by split. Qed.

Lemma holds_bind {A B} (c : M A) (k : A → M B) (φ : A → Prop) (ψ : B → Prop) :
  holds Φ c φ → (∀ a, φ a → holds Φ (k a) ψ) → holds Φ (bind c k) ψ.
Proof.
  intros Hc Hk st HΦ. unfold bind. destruct (Hc st HΦ) as [H1 H2].
  destruct (c st) as [[a|msg] st']; simpl in *.
  - apply Hk; [by apply H2|done].
  - split; [done|]. by intros ? [=].
Qed.

Lemma holds_try_catch {A} (c : M A) (h : string → M A) (φ : A → Prop) :
  holds Φ c φ → (∀ msg, holds Φ (h msg) φ) → holds Φ (try_catch c h) φ.
Proof.
  intros Hc Hh st HΦ. unfold try_catch. destruct (Hc st HΦ) as [H1 H2].
  destruct (c st) as [[a|msg] st']; simpl in *.
  - split; [done|]. intros ? [= <-]. by apply H2.
  - by apply Hh.
Qed.

Lemma holds_weaken {A} (c : M A) (φ ψ : A → Prop) :
  holds Φ c φ → (∀ a, φ a → ψ a) → holds Φ c ψ.
Proof.
  intros Hc Himp st HΦ. destruct (Hc st HΦ) as [H1 H2]. split; [done|].
  intros a Ha. by apply Himp, H2.
Qed.

Lemma holds_get k :
  holds Φ (sessions_get k) (fun o => ∀ session, o = Some session → Φ k session).
Proof.
  intros st HΦ. simpl. split; [done|]. intros ? [= <-] session Hs.
  by apply (HΦ k).
Qed.

Lemma holds_mutate k s' : Φ k s' → holds Φ (mutate k s') (fun _ => True).
Proof.
  intros Hs' st HΦ. simpl. split; [|done].
  intros j session [(-> & s & _ & ->)|[_ Hj]]%lookup_alter_Some; [done|].
  by apply (HΦ j).
Qed.

Lemma holds_subseteq (m m' : gmap string SessionData) :
  m' ⊆ m → map_Forall Φ m → map_Forall Φ m'.
Proof. intros Hsub HΦ k session Hk. eapply HΦ, lookup_weaken; eauto. Qed.

Lemma holds_destroySession E k : holds Φ (destroySession E k) (fun _ => True).
Proof.
  intros st HΦ. split; [|done].
  destruct (sessions st !! k) as [session|] eqn:Hk.
  - rewrite (destroySession_live _ _ _ _ Hk). simpl.
    eapply holds_subseteq; [apply delete_subseteq|done].
  - by rewrite (destroySession_absent _ _ _ Hk).
Qed.

Lemma holds_cleanupExpiredSessions cfg E :
  holds Φ (cleanupExpiredSessions cfg E) (fun _ => True).
Proof.
  intros st HΦ. split; [|done]. rewrite cleanupExpiredSessions_run. simpl.
  eapply holds_subseteq; [apply map_filter_subseteq|done].
Qed.

Lemma holds_getSession E k :
  stable_at Φ (clock_touch E) k → holds Φ (getSession E k) (Φ k).
Proof.
  intros Hst. unfold getSession. eapply holds_bind; [apply holds_get|].
  intros [session|] Ho; [|apply holds_throw].
  specialize (Ho _ eq_refl). destruct (Hst _ Ho) as (Ht & _ & _).
  eapply holds_bind; [apply holds_mutate, Ht|]. intros _ _. apply holds_ret, Ht.
Qed.

Lemma holds_getCurrentPage E k session :
  stable_at Φ (clock_touch E) k → Φ k session →
  holds Φ (getCurrentPage E k session) (fun ps => Φ k ps.2).
Proof.
  intros Hst Hs. unfold getCurrentPage.
  destruct (last (pages session)) as [page|]; [by apply holds_ret|].
  eapply holds_bind; [apply holds_emit|]. intros _ _.
  eapply holds_bind; [apply holds_lift|]. intros page _.
  destruct (Hst _ Hs) as (_ & Hp & _).
  eapply holds_bind; [apply holds_mutate, Hp|]. intros _ _. apply holds_ret, Hp.
Qed.

Ltac holds_simple :=
  repeat first
    [ apply holds_ret; exact I
    | eapply holds_bind; [apply holds_lift | intros ? _]
    | eapply holds_bind; [apply holds_emit | intros ? _]
    | eapply holds_bind; [apply holds_size | intros ? _]
    | eapply holds_bind; [apply holds_entries | intros ? _]
    | match goal with
      | |- holds _ (json _) _ => unfold json
      | |- holds _ (fail_with _ _) _ => unfold fail_with
      | |- holds _ (if ?b then _ else _) _ => destruct b
      | |- holds _ (bind (if ?b then _ else _) _) _ => destruct b
      end ].

Lemma holds_route cfg E r id :
  target r = Some id → stable_at Φ (clock_touch E) id →
  holds Φ (handle cfg E r) (fun _ => True).
Proof.
  intros Htarget Hst.
  assert (∀ (k : SessionData → M Response),
            (∀ session, Φ id session → holds Φ (k session) (fun _ => True)) →
            holds Φ (session <- getSession E id ;; k session) (fun _ => True))
    as Hget.
  { intros k Hk. eapply holds_bind; [by apply holds_getSession|]. done. }
  assert (∀ session (k : Page * SessionData → M Response),
            Φ id session →
            (∀ ps, Φ id ps.2 → holds Φ (k ps) (fun _ => True)) →
            holds Φ (ps <- getCurrentPage E id session ;; k ps) (fun _ => True))
    as Hpage.
  { intros session k Hs Hk.
    eapply holds_bind; [by apply holds_getCurrentPage|]. done. }
  destruct r; simplify_eq/=;
    unfold route_info, route_navigate, route_click, route_screenshot,
      route_evaluate, route_content, route_delete;
    (apply holds_try_catch; [|intros; holds_simple]).
  - apply Hget. intros. holds_simple.
  - apply Hget. intros session Hs. apply Hpage; [done|]. intros [page s2] Hs2.
    simpl in *. holds_simple.
    destruct (Hst _ Hs2) as (_ & _ & Hu).
    eapply holds_bind; [apply holds_mutate, Hu|]. intros _ _. holds_simple.
  - apply Hget. intros session Hs. apply Hpage; [done|]. intros [page s2] Hs2.
    simpl in *. holds_simple;
    destruct (Hst _ Hs2) as (_ & _ & Hu);
    (eapply holds_bind; [apply holds_mutate, Hu|]); intros _ _; holds_simple.
  - apply Hget. intros session Hs. apply Hpage; [done|]. intros [page s2] Hs2.
    simpl in *. holds_simple.
  - apply Hget. intros session Hs. apply Hpage; [done|]. intros [page s2] Hs2.
    simpl in *. holds_simple.
  - apply Hget. intros session Hs. apply Hpage; [done|]. intros [page s2] Hs2.
    simpl in *. holds_simple.
  - eapply holds_bind; [apply holds_destroySession|]. intros. holds_simple.
Qed.

End Holds.

Section SameKeys.

Lemma same_keys_ret {A} (a : A) : same_keys (ret a).
Proof. by intros st. Qed.

Lemma same_keys_throw {A} msg : same_keys (@throw A msg).
Proof. by intros st. Qed.

Lemma same_keys_lift {A} (r : Res A) : same_keys (lift r).
Proof. by intros st. Qed.

Lemma same_keys_emit e : same_keys (emit e).
Proof. by intros st. Qed.

Lemma same_keys_get k : same_keys (sessions_get k).
Proof. by intros st. Qed.

Lemma same_keys_size : same_keys sessions_size.
Proof. by intros st. Qed.

Lemma same_keys_entries : same_keys sessions_entries.
Proof. by intros st. Qed.

Lemma same_keys_mutate k s' : same_keys (mutate k s').
Proof. intros st. simpl. by rewrite dom_alter_L. Qed.

Lemma same_keys_bind {A B} (c : M A) (k : A → M B) :
  same_keys c → (∀ a, same_keys (k a)) → same_keys (bind c k).
Proof.
  intros Hc Hk st. unfold bind. specialize (Hc st).
  destruct (c st) as [[a|msg] st1]; simpl in *; [|done].
  by rewrite Hk.
Qed.

Lemma same_keys_try_catch {A} (c : M A) (h : string → M A) :
  same_keys c → (∀ msg, same_keys (h msg)) → same_keys (try_catch c h).
Proof.
  intros Hc Hh st. unfold try_catch. specialize (Hc st).
  destruct (c st) as [[a|msg] st1]; simpl in *; [done|].
  by rewrite Hh.
Qed.

Ltac same_keys_auto :=
  repeat first
    [ apply same_keys_ret | apply same_keys_throw | apply same_keys_lift
    | apply same_keys_emit | apply same_keys_mutate | apply same_keys_get
    | apply same_keys_size | apply same_keys_entries
    | apply same_keys_try_catch; [|intros ?]
    | apply same_keys_bind; [|intros ?]
    | match goal with
      | |- same_keys (if ?b then _ else _) => destruct b
      | |- same_keys (match ?o with Some _ => _ | None => _ end) => destruct o
      end ].

Lemma same_keys_handle cfg E r :
  is_create r = false → is_delete r = false → same_keys (handle cfg E r).
Proof.
  intros Hc Hd. destruct r; simplify_eq/=;
    unfold route_health, route_info, route_navigate, route_click,
      route_screenshot, route_evaluate, route_content, route_sessions,
      getSession, getCurrentPage, json, fail_with;
    same_keys_auto.
Qed.

End SameKeys.

(** ** Lookups and their errors *)

(** X1: once a session is destroyed, looking it up fails with "Session not
    found", through [getSession] and through the info route (404), and the
    failed lookup changes nothing. *)
Theorem get_after_destroy E E' id st :
  let gone := (destroySession E id st).2 in
  getSession E' id gone = (Throw (not_found id), gone)
  ∧ route_info E' id (route_delete E id st).2
    = (Ok {| status_code := 404; body := BError (not_found id) |},
       (route_delete E id st).2)
  ∧ (route_delete E id st).2 = gone.
Proof.
  cbv zeta.
  assert (sessions (destroySession E id st).2 !! id = None) as Hgone.
  { destruct (sessions st !! id) as [session|] eqn:Hs.
    - rewrite (destroySession_live _ _ _ _ Hs). simpl. apply lookup_delete_eq.
    - by rewrite (destroySession_absent _ _ _ Hs). }
  assert ((route_delete E id st).2 = (destroySession E id st).2) as Hroute.
  { unfold route_delete. rewrite try_catch_fail_with. unfold bind.
    by destruct (destroySession E id st) as [[b|msg] st']. }
  split_and!; [by apply getSession_absent| |done].
  rewrite Hroute. unfold route_info. rewrite try_catch_fail_with. unfold bind.
  by rewrite getSession_absent.
Qed.

(** X2: a request that names an id that is not in the registry is answered
    without touching the server: 404 by the info route, 500 by the
    navigate, click, screenshot, evaluate and content routes, each with the
    error "Session not found: <id>", and [{success: false}] with status 200
    by the delete route; no page is opened and nothing is logged. *)
Theorem unknown_session_replies cfg E r id st :
  target r = Some id →
  sessions st !! id = None →
  handle cfg E r st
  = (Ok {| status_code := match r with
                          | GetInfo _ => 404
                          | DeleteSession _ => 200
                          | _ => 500
                          end;
           body := match r with
                   | DeleteSession _ => BDeleted false
                   | _ => BError (not_found id)
                   end |},
     st).
Proof.
  intros Htarget Habsent.
  destruct r; simplify_eq/=;
    unfold route_info, route_navigate, route_click, route_screenshot,
      route_evaluate, route_content, route_delete;
    rewrite try_catch_fail_with; unfold bind;
    rewrite ?getSession_absent, ?destroySession_absent by done; reflexivity.
Qed.

Lemma unknown_session_replies_witness :
  handle CONFIG quiet (PostNavigate "ses_gone" (Some "https://example.com") None)
    (registry [visited])
  = (Ok {| status_code := 500; body := BError "Session not found: ses_gone" |},
     registry [visited]).
Proof.
  apply (unknown_session_replies CONFIG quiet
           (PostNavigate "ses_gone" (Some "https://example.com") None)
           "ses_gone" (registry [visited])).
  - reflexivity.
  - vm_compute. reflexivity.
Defined.

(** ** Isolation and identity *)

(** X3: a request other than a creation that does not name the session
    [other] leaves the record stored under [other] exactly as it was
    (present or absent), whatever Puppeteer answers. *)
Theorem other_sessions_untouched cfg E r other st :
  leaves_alone other r →
  sessions (handle cfg E r st).2 !! other = sessions st !! other.
Proof.
  intros [Hcreate Hother].
  destruct (target r) as [id|] eqn:Htarget.
  - assert (id ≠ other) as Hne by congruence.
    destruct (is_delete r) eqn:Hdelete.
    + destruct r; simplify_eq/=. unfold route_delete.
      rewrite try_catch_fail_with. unfold bind.
      match goal with
      | |- context [destroySession E ?k st] =>
          destruct (sessions st !! k) as [session|] eqn:Hs
      end.
      * rewrite (destroySession_live _ _ _ _ Hs). simpl.
        by rewrite lookup_delete_ne.
      * by rewrite (destroySession_absent _ _ _ Hs).
    + pose proof (same_keys_handle cfg E r Hcreate Hdelete st) as Hdom.
      destruct (sessions st !! other) as [s0|] eqn:Hs0.
      * assert (stable_at (fun k s => k = other → s = s0) (clock_touch E) id)
          as Hst by (intros s _; split_and!; intros; congruence).
        destruct (holds_route _ cfg E r id Htarget Hst st) as [HΦ _].
        { intros k s Hk ->. congruence. }
        assert (is_Some (sessions (handle cfg E r st).2 !! other)) as [s1 Hs1].
        { apply elem_of_dom. rewrite Hdom. apply elem_of_dom. eauto. }
        rewrite Hs1. f_equal. by apply (HΦ other).
      * apply not_elem_of_dom. rewrite Hdom. by apply not_elem_of_dom.
  - destruct r; simplify_eq/=; reflexivity.
Qed.

Lemma other_sessions_untouched_witness :
  sessions (handle CONFIG (at_time 50 "" 0)
              (PostNavigate "ses_a" (Some "https://example.net") None)
              two_agents).2 !! "ses_b"
  = Some (set_currentUrl (Some "https://example.org")
            (session_at "ses_b" 2 [20] 0)).
Proof.
  rewrite (other_sessions_untouched CONFIG (at_time 50 "" 0)
             (PostNavigate "ses_a" (Some "https://example.net") None)
             "ses_b" two_agents).
  - vm_compute. reflexivity.
  - split; [reflexivity|]. simpl. intros [=].
Defined.

(** X4: no request other than a creation changes the id, the browser or
    the metadata of a session that is in the registry before and after. *)
Theorem session_identity_fixed cfg E r id session session' st :
  is_create r = false →
  sessions st !! id = Some session →
  sessions (handle cfg E r st).2 !! id = Some session' →
  sess_id session' = sess_id session
  ∧ browser session' = browser session
  ∧ metadata session' = metadata session.
Proof.
  intros Hcreate Hs Hs'.
  set (Φ := fun k s => k = id →
              sess_id s = sess_id session ∧ browser s = browser session
              ∧ metadata s = metadata session).
  assert (map_Forall Φ (sessions st)) as HΦ.
  { intros k s Hk ->. by simplify_eq. }
  destruct (target r) as [id'|] eqn:Htarget.
  - assert (stable_at Φ (clock_touch E) id') as Hst
      by (intros s Hk; split; [exact Hk|]; split; intros; exact Hk).
    destruct (holds_route Φ cfg E r id' Htarget Hst st HΦ) as [HΦ' _].
    by apply (HΦ' id).
  - destruct r; simplify_eq/=; by simplify_eq.
Qed.

Lemma session_identity_fixed_witness :
  ∃ session',
    sessions (handle CONFIG (at_time 50 "" 0)
                (PostNavigate "ses_a" (Some "https://example.net") None)
                two_agents).2 !! "ses_a" = Some session'
    ∧ currentUrl session' = Some "https://example.net"
    ∧ sess_id session' = "ses_a" ∧ browser session' = 1 ∧ metadata session' = [].
Proof.
  eexists. split; [vm_compute; reflexivity|]. split; [reflexivity|].
  eapply (session_identity_fixed CONFIG (at_time 50 "" 0)
            (PostNavigate "ses_a" (Some "https://example.net") None) "ses_a"
            (set_currentUrl (Some "https://example.com")
               (session_at "ses_a" 1 [10] 0)) _ two_agents).
  - reflexivity.
  - vm_compute. reflexivity.
  - vm_compute. reflexivity.
Defined.

Section HoldsEverywhere.
Context (Φ : string → SessionData → Prop).
Hypothesis Φ_stable : ∀ t id, stable_at Φ t id.
Hypothesis Φ_fresh : ∀ E b md, Φ ("ses_" +:+ uuid E) (fresh_record E b md).

Lemma holds_createSession cfg E meta :
  holds Φ (createSession cfg E meta) (fun _ => True).
Proof.
  assert (∀ st, map_Forall Φ (sessions st) →
                size (sessions st) < MAX_SESSIONS cfg →
                map_Forall Φ (sessions (createSession cfg E meta st).2)) as Hroom.
  { intros st HΦ Hlt. rewrite createSession_admitted by done.
    destruct (launch E) as [b|msg]; simpl; [|done].
    apply map_Forall_insert_2; [apply (Φ_fresh E b)|done]. }
  intros st HΦ. split; [|done].
  destruct (decide (MAX_SESSIONS cfg ≤ size (sessions st))) as [Hge|Hlt].
  - rewrite createSession_at_capacity by done. cbv zeta.
    pose proof (holds_cleanupExpiredSessions Φ cfg E st HΦ) as [Hswept _].
    case_decide; [done|]. apply Hroom; [done|lia].
  - apply Hroom; [done|lia].
Qed.

Lemma holds_step cfg E a st :
  map_Forall Φ (sessions st) → map_Forall Φ (sessions (step cfg E a st)).
Proof.
  intros HΦ. destruct a as [r|]; simpl.
  - destruct (target r) as [id|] eqn:Htarget.
    + by apply (holds_route Φ cfg E r id Htarget (Φ_stable _ id) st).
    + destruct r; simplify_eq/=; try done.
      unfold route_create. rewrite try_catch_fail_with. unfold bind.
      match goal with
      | |- context [createSession cfg E ?meta st] =>
          pose proof (holds_createSession cfg E meta st HΦ) as [Hc _];
          by destruct (createSession cfg E meta st) as [[s|msg] st']
      end.
  - unfold cleanup_tick, bind.
    pose proof (holds_cleanupExpiredSessions Φ cfg E st HΦ) as [Hc _].
    destruct (cleanupExpiredSessions cfg E st) as [[n|msg] st']; simpl in *;
      [|done].
    by case_decide.
Qed.

Lemma holds_run cfg l st :
  map_Forall Φ (sessions st) → map_Forall Φ (sessions (run cfg l st)).
Proof.
  revert st. induction l as [|[E a] l IH]; intros st HΦ; simpl; [done|].
  by apply IH, holds_step.
Qed.

End HoldsEverywhere.

(** X5: in every state reached from the empty registry a record is stored
    under its own id, and that id is "ses_" followed by a uuid. *)
Theorem stored_under_own_id cfg l k session :
  sessions (run cfg l initial) !! k = Some session →
  sess_id session = k ∧ ∃ u, k = "ses_" +:+ u.
Proof.
  intros Hk.
  apply (holds_run (fun k s => sess_id s = k ∧ ∃ u, k = "ses_" +:+ u))
    with (cfg := cfg) (l := l) (st := initial);
    [| |apply map_Forall_empty|exact Hk].
  - intros t id s Hs. split; [exact Hs|]. split; intros; exact Hs.
  - intros E b md. simpl. eauto.
Qed.

Lemma stored_under_own_id_witness :
  ∃ session,
    sessions (run CONFIG browsing initial) !! "ses_a" = Some session
    ∧ sess_id session = "ses_a".
Proof.
  eexists. split; [vm_compute; reflexivity|].
  eapply (stored_under_own_id CONFIG browsing "ses_a"). vm_compute. reflexivity.
Defined.

(** ** Listing and reading *)

(** X6: listing the sessions is not an activity: the route never fails and
    leaves the server, every [lastAccessed] included, as it was; it sends
    one info record per session of the registry and their number as
    [count]. *)
Theorem listing_is_not_activity E st :
  ∃ infos,
    route_sessions E st
    = (Ok {| status_code := 200; body := BList infos (size (sessions st)) |}, st)
    ∧ length infos = size (sessions st)
    ∧ ∀ info, info ∈ infos ↔
        ∃ k session, sessions st !! k = Some session
                     ∧ info = session_info E session.
Proof.
  exists (map (fun kv => session_info E kv.2) (map_to_list (sessions st))).
  assert (length (map (fun kv : string * SessionData => session_info E kv.2)
                    (map_to_list (sessions st))) = size (sessions st)) as Hlen
    by (by rewrite length_map, length_map_to_list).
  split_and!; [|done|].
  - unfold route_sessions. munfold. simpl. by rewrite Hlen.
  - intros info.
    change (map (fun kv : string * SessionData => session_info E kv.2)
              (map_to_list (sessions st)))
      with ((fun kv : string * SessionData => session_info E kv.2)
              <$> map_to_list (sessions st)).
    rewrite list_elem_of_fmap. split.
    + intros [[k session] [-> Hin%elem_of_map_to_list]]. eauto.
    + intros (k & session & Hs & ->). exists (k, session).
      split; [done|]. by apply elem_of_map_to_list.
Qed.

Lemma length_substring_0 n s :
  String.length (String.substring 0 n s) = n `min` String.length s.
Proof.
  revert s. induction n as [|n IH]; intros [|c s]; simpl; try done.
  by rewrite IH.
Qed.

Lemma prefix_substring_0 n s : String.prefix (String.substring 0 n s) s = true.
Proof.
  revert s. induction n as [|n IH]; intros [|c s]; simpl; try done.
  destruct (Ascii.ascii_dec c c); [apply IH|done].
Qed.

(** X7: when the content of the page of a live session and its title can
    be read, the content route answers 200 with the title, the url, the
    first 10000 characters of that content and, as [contentLength], the
    length of all of it; what is sent is a prefix of the content and
    [min 10000 contentLength] characters long.  Characters are the code
    units of the JavaScript string (the model has those below 256). *)
Theorem content_is_capped E id session page full title st :
  sessions st !! id = Some session →
  current_page E session = Ok page →
  page_content E page = Ok full →
  page_title E page = Ok title →
  let sent := String.substring 0 10000 full in
  (route_content E id st).1
  = Ok {| status_code := 200;
          body := BContent title (page_url E page) sent (String.length full) |}
  ∧ String.prefix sent full = true
  ∧ String.length sent = 10000 `min` String.length full.
Proof.
  intros Hlive Hpage Hcontent Htitle. cbv zeta.
  split; [|split; [apply prefix_substring_0|apply length_substring_0]].
  unfold route_content, getSession, getCurrentPage. unfold current_page in Hpage.
  munfold. rewrite Hlive. simpl.
  destruct (last (pages session)) as [p|]; simpl.
  - injection Hpage as ->. rewrite Hcontent. simpl. by rewrite Htitle.
  - rewrite Hpage. simpl. rewrite Hcontent. simpl. by rewrite Htitle.
Qed.

Lemma content_is_capped_witness :
  ∃ sent,
    (route_content long_page "ses_a" (registry [visited])).1
    = Ok {| status_code := 200;
            body := BContent "Example Domain" "https://example.com/" sent 10010 |}
    ∧ String.length sent = 10000.
Proof.
  destruct (content_is_capped long_page "ses_a" visited 10
              (String.concat "" (repeat "0123456789" 1001)) "Example Domain"
              (registry [visited]))
    as (Hreply & _ & Hlen);
    [vm_compute; reflexivity|reflexivity|reflexivity|reflexivity|].
  eexists. split; [exact Hreply|]. rewrite Hlen. vm_compute. reflexivity.
Defined.

(** ** Sweeps and creations *)

(** X8: right after a sweep, a second sweep or timer tick at the same or an
    earlier clock reading finds nothing: it returns 0, destroys nothing and
    logs nothing. *)
Theorem second_sweep_finds_nothing cfg E E' st :
  (clock_sweep E' ≤ clock_sweep E)%Z →
  let swept := (cleanupExpiredSessions cfg E st).2 in
  cleanupExpiredSessions cfg E' swept = (Ok 0, swept)
  ∧ cleanup_tick cfg E' swept = (Ok tt, swept).
Proof.
  intros Hclock swept.
  assert (cleanupExpiredSessions cfg E' swept = (Ok 0, swept)) as Hsweep.
  { apply sweep_nothing_expired. intros k session. unfold swept.
    rewrite cleanupExpiredSessions_run. simpl.
    intros [_ Hfresh]%map_lookup_filter_Some.
    unfold is_expired in Hfresh. simpl in Hfresh. lia. }
  split; [done|]. unfold cleanup_tick, bind. rewrite Hsweep. reflexivity.
Qed.

Lemma second_sweep_finds_nothing_witness :
  cleanupExpiredSessions CONFIG (at_time 1000000 "" 0)
    (cleanupExpiredSessions CONFIG (at_time 1000000 "" 0) below_at_above).2
  = (Ok 0, (cleanupExpiredSessions CONFIG (at_time 1000000 "" 0) below_at_above).2).
Proof.
  apply (second_sweep_finds_nothing CONFIG (at_time 1000000 "" 0)
           (at_time 1000000 "" 0) below_at_above).
  vm_compute. discriminate.
Defined.

(** X9: a creation below the limit does not sweep: every session already
    in the registry, expired or not, is still there afterwards unless the
    new id is its own (a repeated uuid). *)
Theorem create_with_room_keeps_idle_sessions cfg E meta st k session :
  size (sessions st) < MAX_SESSIONS cfg →
  sessions st !! k = Some session →
  k ≠ "ses_" +:+ uuid E →
  sessions (route_create cfg E meta st).2 !! k = Some session.
Proof.
  intros Hroom Hk Hne. unfold route_create. rewrite try_catch_fail_with.
  unfold bind. rewrite createSession_admitted by done.
  destruct (launch E) as [b|msg]; simpl; [|done].
  by rewrite lookup_insert_ne.
Qed.

Lemma create_with_room_keeps_idle_sessions_witness :
  sessions (route_create CONFIG (at_time 1000000 "new" 9) None below_at_above).2
    !! "ses_above"
  = Some (session_at "ses_above" 3 [30] 699999).
Proof.
  apply (create_with_room_keeps_idle_sessions CONFIG (at_time 1000000 "new" 9)
           None below_at_above "ses_above").
  - vm_compute. lia.
  - vm_compute. reflexivity.
  - vm_compute. discriminate.
Defined.

(** X10: when the browser cannot be launched the creation stores nothing:
    the registry afterwards holds only records it held before, and the
    reply is a 500 whose error is the message of the launch failure, or
    the capacity error when the registry was full. *)
Theorem create_launch_failure cfg E meta msg st :
  launch E = Throw msg →
  ∃ error st',
    route_create cfg E meta st
    = (Ok {| status_code := 500; body := BError error |}, st')
    ∧ (error = msg ∨ error = limit_reached cfg)
    ∧ sessions st' ⊆ sessions st.
Proof.
  intros Hlaunch. unfold route_create. rewrite try_catch_fail_with. unfold bind.
  destruct (decide (MAX_SESSIONS cfg ≤ size (sessions st))) as [Hge|Hlt].
  - rewrite createSession_at_capacity by done. cbv zeta.
    rewrite cleanupExpiredSessions_run. simpl. case_decide; simpl.
    + eexists _, _. split_and!; [reflexivity|by right|].
      simpl. apply map_filter_subseteq.
    + rewrite createSession_admitted by (simpl; lia). rewrite Hlaunch. simpl.
      eexists _, _. split_and!; [reflexivity|by left|].
      simpl. apply map_filter_subseteq.
  - rewrite createSession_admitted by lia. rewrite Hlaunch. simpl.
    eexists _, _. split_and!; [reflexivity|by left|done].
Qed.

Lemma create_launch_failure_witness :
  ∃ st',
    route_create CONFIG no_browser None two_agents
    = (Ok {| status_code := 500;
             body := BError "Failed to launch the browser process!" |}, st')
    ∧ sessions st' = sessions two_agents.
Proof.
  destruct (create_launch_failure CONFIG no_browser None
              "Failed to launch the browser process!" two_agents)
    as (error & st' & Hrun & _ & _); [reflexivity|].
  exists st'. split.
  - rewrite Hrun. revert Hrun. vm_compute. intros [= <- _]. reflexivity.
  - revert Hrun. vm_compute. intros [= _ <-]. reflexivity.
Defined.

(** ** What a reply says and what the record says *)

(** X11: the navigate route stores the url before it reads the title: when
    [page.goto] succeeds and [page.title] fails, the reply is the 500 error
    of the title and [currentUrl] is already the requested url. *)
Theorem navigate_reply_fails_after_update E id url waitUntil session page msg st :
  sessions st !! id = Some session →
  current_page E session = Ok page →
  setViewport E page 800 600 = Ok tt →
  goto E page url (default "networkidle2" waitUntil) = Ok tt →
  page_title E page = Throw msg →
  ∃ st' session',
    route_navigate E id url waitUntil st
    = (Ok {| status_code := 500; body := BError msg |}, st')
    ∧ sessions st' !! id = Some session'
    ∧ currentUrl session' = url.
Proof.
  intros Hlive Hpage Hview Hgoto Htitle.
  unfold route_navigate, getSession, getCurrentPage. unfold current_page in Hpage.
  munfold. rewrite Hlive. simpl.
  destruct (last (pages session)) as [p|]; simpl.
  - injection Hpage as ->. rewrite Hview. simpl. rewrite Hgoto. simpl.
    rewrite Htitle. simpl. eexists _, _. split; [reflexivity|]. simpl.
    rewrite !lookup_alter_eq, Hlive. simpl. done.
  - rewrite Hpage. simpl. rewrite Hview. simpl. rewrite Hgoto. simpl.
    rewrite Htitle. simpl. eexists _, _. split; [reflexivity|]. simpl.
    rewrite !lookup_alter_eq, Hlive. simpl. done.
Qed.

Lemma navigate_reply_fails_after_update_witness :
  ∃ st' session',
    route_navigate no_title "ses_a" (Some "https://example.net") None
      (registry [visited])
    = (Ok {| status_code := 500;
             body := BError "Execution context was destroyed" |}, st')
    ∧ sessions st' !! "ses_a" = Some session'
    ∧ currentUrl session' = Some "https://example.net".
Proof.
  apply (navigate_reply_fails_after_update no_title "ses_a"
           (Some "https://example.net") None visited 10
           "Execution context was destroyed" (registry [visited]));
    [vm_compute; reflexivity|reflexivity|reflexivity|reflexivity|reflexivity].
Defined.

(** X12: the click route stores the url after everything else: on a live
    session it either answers 200 with the new url, which is then the
    session's [currentUrl], or answers 500 and leaves [currentUrl] as it
    was. *)
Theorem click_updates_url_only_on_success E id selector wait session st :
  sessions st !! id = Some session →
  ∃ resp st' session',
    route_click E id selector wait st = (Ok resp, st')
    ∧ sessions st' !! id = Some session'
    ∧ ((∃ newUrl title,
          resp = {| status_code := 200; body := BClicked newUrl title |}
          ∧ currentUrl session' = Some newUrl)
       ∨ ((∃ msg, resp = {| status_code := 500; body := BError msg |})
          ∧ currentUrl session' = currentUrl session)).
Proof.
  intros Hlive. unfold route_click, getSession, getCurrentPage.
  munfold. rewrite Hlive. simpl.
  destruct (last (pages session)) as [page|]; simpl;
    [|destruct (newPage E (browser session)) as [page|]; simpl];
    try (destruct wait; simpl;
         [destruct (click_and_wait E page selector) as [[]|]
         |destruct (page_click E page selector) as [[]|]]; simpl;
         try (destruct (page_title E page); simpl));
    eexists _, _, _; (split; [reflexivity|]); simpl;
    rewrite !lookup_alter_eq, Hlive; simpl; (split; [reflexivity|]); simpl;
    first [left; by eexists _, _ | right; split; [by eexists|done]].
Qed.

Lemma click_updates_url_only_on_success_witness :
  ∃ st' session',
    route_click no_title "ses_a" (Some "a.more") false (registry [visited])
    = (Ok {| status_code := 500;
             body := BError "Execution context was destroyed" |}, st')
    ∧ sessions st' !! "ses_a" = Some session'
    ∧ currentUrl session' = Some "https://example.com".
Proof.
  destruct (click_updates_url_only_on_success no_title "ses_a" (Some "a.more")
              false visited (registry [visited]))
    as (resp & st' & session' & Hrun & Hlook & Hcases);
    [vm_compute; reflexivity|].
  assert (resp = {| status_code := 500;
                    body := BError "Execution context was destroyed" |}) as ->.
  { revert Hrun. vm_compute. by intros [= <- _]. }
  exists st', session'. split_and!; [exact Hrun|exact Hlook|].
  destruct Hcases as [(newUrl & title & Hresp & _)|[_ Hurl]];
    [discriminate Hresp|]. rewrite Hurl. reflexivity.
Defined.

(** ** The tools with a session id *)

Lemma same_keys_browserServerRequest cfg h r :
  is_create r = false → is_delete r = false →
  same_keys (browserServerRequest cfg h r).
Proof.
  intros Hc Hd. pose proof (same_keys_handle cfg (hop_env h) r Hc Hd) as Hh.
  unfold browserServerRequest. destruct (hop_wire h).
  - apply same_keys_bind; [done|]. intros. apply same_keys_ret.
  - apply same_keys_throw.
  - apply same_keys_bind; [done|]. intros. apply same_keys_throw.
Qed.

Lemma plain_id_truthy id : plain_id id = true → truthy (Some id) = true.
Proof. by destruct id. Qed.

(** X13: called with a plain session id, the navigate and screenshot tools
    send neither a creation nor a deletion: whatever happens to their
    requests, the registry has the same ids afterwards. *)
Theorem tools_with_session_id_are_passthrough cfg args id h1 h2 h3 h4 st tool :
  arg_sessionId args = Some id →
  plain_id id = true →
  tool = puppeteer_navigate cfg args h1 h2 h3 h4
  ∨ tool = puppeteer_screenshot cfg args h1 h2 h3 h4 →
  dom (sessions (call_tool tool st).2) = dom (sessions st).
Proof.
  intros Hargs Hplain Htool.
  assert (truthy (arg_sessionId args) = true) as Hid
    by (rewrite Hargs; by apply plain_id_truthy).
  assert (same_keys (call_tool tool)) as Hsame; [|apply Hsame].
  unfold call_tool. apply same_keys_try_catch; [|intros; apply same_keys_ret].
  destruct Htool as [-> | ->]; unfold puppeteer_navigate, puppeteer_screenshot;
    rewrite Hid; simpl;
    repeat first
      [ apply same_keys_ret
      | apply same_keys_browserServerRequest; reflexivity
      | apply same_keys_bind; [|intros ?] ].
Qed.

Lemma tools_with_session_id_are_passthrough_witness :
  dom (sessions (call_tool (puppeteer_navigate CONFIG with_session
                              (delivered quiet) (delivered offline)
                              (lost quiet) (delivered quiet))
                   two_agents).2)
  = dom (sessions two_agents).
Proof.
  apply (tools_with_session_id_are_passthrough CONFIG with_session "ses_a"
           (delivered quiet) (delivered offline) (lost quiet) (delivered quiet)
           two_agents).
  - reflexivity.
  - reflexivity.
  - left. reflexivity.
Defined.

(** ** The routes always reply *)

Lemma bind_status {A} (c : M A) (k : A → M Response) st resp st' :
  (∀ a st1 resp st', k a st1 = (Ok resp, st') → status_code resp = 200) →
  bind c k st = (Ok resp, st') → status_code resp = 200.
Proof.
  intros Hk. unfold bind. destruct (c st) as [[a|msg] st1]; [|done]. apply Hk.
Qed.

Lemma json_status b st resp st' :
  json b st = (Ok resp, st') → status_code resp = 200.
Proof. by intros [= <- _]. Qed.

Lemma route_status (c : M Response) code st :
  (∀ st resp st', c st = (Ok resp, st') → status_code resp = 200) →
  ∃ resp st',
    try_catch c (fail_with code) st = (Ok resp, st')
    ∧ (status_code resp = 200 ∨ status_code resp = code).
Proof.
  intros Hc. rewrite try_catch_fail_with. eexists _, _. split; [reflexivity|].
  destruct (c st) as [[resp|msg] st'] eqn:Hrun; simpl; [|by right].
  left. by eapply Hc.
Qed.

Ltac status_200 :=
  intros ? ? ?;
  repeat first
    [ apply json_status
    | apply bind_status; intros ? ? ? ? ].

(** X14: none of the ten routes lets an exception escape its handler:
    whatever parameters the handler finds in the request and whatever
    Puppeteer answers, it sends a reply with status 200, 404 or 500, and
    404 is sent by the info route only. *)
Theorem routes_always_reply cfg E r st :
  ∃ resp st',
    handle cfg E r st = (Ok resp, st')
    ∧ (status_code resp = 200 ∨ status_code resp = 500
       ∨ (status_code resp = 404 ∧ ∃ id, r = GetInfo id)).
Proof.
  destruct r; simpl.
  - eexists _, _. split; [reflexivity|by left].
  - unfold route_create.
    edestruct route_status as (resp & st' & Hrun & Hs);
      [|exists resp, st'; split; [exact Hrun|tauto]]. status_200.
  - unfold route_info.
    edestruct route_status as (resp & st' & Hrun & Hs);
      [|exists resp, st'; split; [exact Hrun|destruct Hs; eauto]]. status_200.
  - unfold route_navigate.
    edestruct route_status as (resp & st' & Hrun & Hs);
      [|exists resp, st'; split; [exact Hrun|tauto]]. status_200.
  - unfold route_click.
    edestruct route_status as (resp & st' & Hrun & Hs);
      [|exists resp, st'; split; [exact Hrun|tauto]]. status_200.
  - unfold route_screenshot.
    edestruct route_status as (resp & st' & Hrun & Hs);
      [|exists resp, st'; split; [exact Hrun|tauto]]. status_200.
  - unfold route_evaluate.
    edestruct route_status as (resp & st' & Hrun & Hs);
      [|exists resp, st'; split; [exact Hrun|tauto]]. status_200.
  - unfold route_content.
    edestruct route_status as (resp & st' & Hrun & Hs);
      [|exists resp, st'; split; [exact Hrun|tauto]]. status_200.
  - unfold route_delete.
    edestruct route_status as (resp & st' & Hrun & Hs);
      [|exists resp, st'; split; [exact Hrun|tauto]]. status_200.
  - eexists _, _. split; [reflexivity|by left].
Qed.

(** ** Keeping a session alive *)

Lemma getSession_touched E id st :
  getSession E id (touched (clock_touch E) id st) = getSession E id st.
Proof.
  unfold getSession, touched. munfold. simpl. rewrite lookup_alter_eq.
  destruct (sessions st !! id) as [session|] eqn:Hs; simpl.
  - by rewrite alter_alter_eq.
  - rewrite alter_id; [by destruct st|]. intros s Hs'. congruence.
Qed.

Lemma handle_touched cfg E r id st :
  target r = Some id → is_delete r = false →
  handle cfg E r (touched (clock_touch E) id st) = handle cfg E r st.
Proof.
  intros Htarget Hdelete. destruct r; simplify_eq/=;
    unfold route_info, route_navigate, route_click, route_screenshot,
      route_evaluate, route_content, try_catch, bind;
    by rewrite getSession_touched.
Qed.

(** X15: every request that names a live session, the deletion apart,
    stamps it with the time of the lookup, however long it had been idle,
    even beyond the timeout: a sweep that reads the clock at most
    [SESSION_TIMEOUT_MS] later keeps the session. *)
Theorem request_keeps_session_alive cfg E E' r id session st :
  target r = Some id →
  is_delete r = false →
  sessions st !! id = Some session →
  (clock_sweep E' - clock_touch E ≤ SESSION_TIMEOUT_MS cfg)%Z →
  ∃ session',
    sessions (handle cfg E r st).2 !! id = Some session'
    ∧ lastAccessed session' = clock_touch E
    ∧ sessions (cleanup_tick cfg E' (handle cfg E r st).2).2 !! id
      = Some session'.
Proof.
  intros Htarget Hdelete Hlive Hclock.
  assert (is_create r = false) as Hcreate by (by destruct r).
  rewrite <- (handle_touched cfg E r id st Htarget Hdelete).
  set (st0 := touched (clock_touch E) id st).
  set (Φ := fun k s => k = id → lastAccessed s = clock_touch E).
  assert (map_Forall Φ (sessions st0)) as HΦ.
  { intros k s Hk ->. unfold st0, touched in Hk. simpl in Hk.
    rewrite lookup_alter_eq, Hlive in Hk. by simplify_eq/=. }
  assert (stable_at Φ (clock_touch E) id) as Hst
    by (intros s Hs; split; [done|]; split; intros; exact Hs).
  destruct (holds_route Φ cfg E r id Htarget Hst st0 HΦ) as [HΦ' _].
  assert (is_Some (sessions (handle cfg E r st0).2 !! id)) as [session' Hs'].
  { apply elem_of_dom. rewrite (same_keys_handle cfg E r Hcreate Hdelete).
    apply elem_of_dom. unfold st0, touched. simpl.
    rewrite lookup_alter_eq, Hlive. eauto. }
  pose proof (HΦ' id session' Hs' eq_refl) as Hlast.
  exists session'. split_and!; [done|done|].
  unfold cleanup_tick, bind. rewrite cleanupExpiredSessions_run. simpl.
  assert (filter (fun kv => ¬ is_expired cfg (clock_sweep E') kv)
            (sessions (handle cfg E r st0).2) !! id = Some session') as Hkept.
  { apply map_lookup_filter_Some. split; [done|].
    unfold is_expired. simpl. lia. }
  by case_decide.
Qed.

Lemma request_keeps_session_alive_witness :
  ∃ session',
    sessions (cleanup_tick CONFIG (at_time 1300000 "" 0)
                (handle CONFIG (at_time 1000000 "" 0) (GetContent "ses_above")
                   below_at_above).2).2 !! "ses_above" = Some session'
    ∧ lastAccessed session' = 1000000%Z.
Proof.
  destruct (request_keeps_session_alive CONFIG (at_time 1000000 "" 0)
              (at_time 1300000 "" 0) (GetContent "ses_above") "ses_above"
              (session_at "ses_above" 3 [30] 699999) below_at_above)
    as (session' & _ & Hlast & Hkept);
    [reflexivity|reflexivity|vm_compute; reflexivity|vm_compute; discriminate|].
  exists session'. split; [exact Hkept|exact Hlast].
Defined.

(** ** The temporary session when every request is answered *)

(** X24: called without a session id, the navigate and screenshot tools
    return a result and leave no session behind that was not there before,
    provided each of their four requests is answered, whatever the answers
    say (a failed navigation or content read included). *)
Theorem temporary_session_closed_when_answered cfg args E1 E2 E3 E4 st tool :
  truthy (arg_sessionId args) = false →
  tool = puppeteer_navigate cfg args (delivered E1) (delivered E2)
           (delivered E3) (delivered E4)
  ∨ tool = puppeteer_screenshot cfg args (delivered E1) (delivered E2)
             (delivered E3) (delivered E4) →
  ∃ result st',
    call_tool tool st = (Ok result, st')
    ∧ dom (sessions st') ⊆ dom (sessions st).
Proof.
  intros Htemp [-> | ->].
  - by apply navigate_cleans_up_when_answered.
  - by apply screenshot_cleans_up_when_answered.
Qed.

Lemma temporary_session_closed_when_answered_witness :
  ∃ result st',
    call_tool (puppeteer_screenshot CONFIG just_url (delivered quiet)
                 (delivered offline) (delivered no_title) (delivered stuck))
      two_agents = (Ok result, st')
    ∧ dom (sessions st') ⊆ dom (sessions two_agents).
Proof.
  apply (temporary_session_closed_when_answered CONFIG just_url quiet offline
           no_title stuck two_agents).
  - reflexivity.
  - right. reflexivity.
Defined.

(** ** Shutdown *)

Lemma destroy_all_run E ids st :
  destroy_all E ids st
  = (Ok tt, {| sessions := foldr delete (sessions st) ids;
               trace := trace st ++ teardown_all E ids (sessions st) |}).
Proof.
  revert st. induction ids as [|k ids IH]; intros st; simpl.
  - unfold ret. rewrite app_nil_r. by destruct st.
  - unfold bind. destruct (sessions st !! k) as [session|] eqn:Hs.
    + rewrite (destroySession_live _ _ _ _ Hs), IH. simpl.
      by rewrite foldr_delete_delete, <- app_assoc.
    + rewrite (destroySession_absent _ _ _ Hs), IH.
      rewrite <- foldr_delete_delete. by rewrite (delete_id _ _ Hs).
Qed.

Lemma teardown_events E k session n :
  EvBrowserClose (browser session) ∈ teardown E k session n
  ∧ EvMapDelete k ∈ teardown E k session n
  ∧ ∀ page, page ∈ pages session → EvPageClose page ∈ teardown E k session n.
Proof.
  unfold teardown, browser_teardown. split_and!.
  - rewrite !elem_of_app. right. left. left.
  - rewrite !elem_of_app. right. right. left.
  - intros page Hpage. rewrite elem_of_app. left.
    induction (pages session) as [|p ps IH]; [by apply elem_of_nil in Hpage|].
    cbn [map concat]. apply elem_of_app.
    apply elem_of_cons in Hpage as [->|Hpage].
    + left. unfold page_teardown. left.
    + right. by apply IH.
Qed.

Lemma teardown_all_covers E ids (m : gmap string SessionData) k session :
  k ∈ ids → m !! k = Some session →
  ∃ n, ∀ e, e ∈ teardown E k session n → e ∈ teardown_all E ids m.
Proof.
  revert m. induction ids as [|j ids IH]; intros m Hk Hs;
    [by apply elem_of_nil in Hk|].
  simpl. destruct (decide (j = k)) as [->|Hne].
  - rewrite Hs. eexists. intros e He. apply elem_of_app. by left.
  - apply elem_of_cons in Hk as [->|Hk]; [done|].
    destruct (IH (delete j m) Hk) as [n Hn]; [by rewrite lookup_delete_ne|].
    exists n. intros e He. apply elem_of_app. right. by apply Hn.
Qed.

(** X16: shutting down never fails, whatever the closes answer: the cleanup
    interval is cleared, every session is destroyed (each of its pages and
    its browser is closed, its entry deleted), the registry ends empty and
    the process exits with code 0. *)
Theorem shutdown_destroys_everything E p :
  let p' := shutdown E p in
  exit_code p' = Some 0
  ∧ interval_armed p' = false
  ∧ sessions (proc_server p') = ∅
  ∧ ∀ k session, sessions (proc_server p) !! k = Some session →
      EvBrowserClose (browser session) ∈ trace (proc_server p')
      ∧ EvMapDelete k ∈ trace (proc_server p')
      ∧ ∀ page, page ∈ pages session →
                EvPageClose page ∈ trace (proc_server p').
Proof.
  cbv zeta. unfold shutdown. unfold bind at 2, console_log, emit.
  unfold bind, sessions_keys. simpl. rewrite destroy_all_run. simpl.
  split_and!; [done|done| |].
  - apply map_eq. intros k. rewrite lookup_empty.
    destruct (sessions (proc_server p) !! k) as [session|] eqn:Hs.
    + apply lookup_foldr_delete. apply list_elem_of_fmap.
      exists (k, session). split; [done|]. by apply elem_of_map_to_list.
    + rewrite lookup_foldr_delete_not_elem_of; [done|].
      intros [[k' s'] [-> Hin%elem_of_map_to_list]]%list_elem_of_fmap.
      simpl in Hs. congruence.
  - intros k session Hs.
    destruct (teardown_all_covers E (map_to_list (sessions (proc_server p))).*1
                (sessions (proc_server p)) k session) as [n Hn]; [|done|].
    { apply list_elem_of_fmap. exists (k, session). split; [done|].
      by apply elem_of_map_to_list. }
    destruct (teardown_events E k session n) as (Hb & Hd & Hp).
    split_and!; [| |intros page Hpage]; apply elem_of_app; right;
      apply Hn; auto.
Qed.

Lemma shutdown_destroys_everything_witness :
  exit_code (shutdown stuck (running two_agents)) = Some 0
  ∧ sessions (proc_server (shutdown stuck (running two_agents))) = ∅
  ∧ EvBrowserClose 2 ∈ trace (proc_server (shutdown stuck (running two_agents))).
Proof.
  destruct (shutdown_destroys_everything stuck (running two_agents))
    as (Hexit & _ & Hempty & Hall).
  split_and!; [exact Hexit|exact Hempty|].
  apply (Hall "ses_b" (set_currentUrl (Some "https://example.org")
                         (session_at "ses_b" 2 [20] 0))).
  vm_compute. reflexivity.
Defined.

(** ** Shell quoting *)

Lemma sh_read_inside arg tail :
  (∀ out, sh_read false tail = Some out →
          sh_read true (replace_quotes arg +:+ String quote tail)
          = Some (arg +:+ out)).
Proof.
  induction arg as [|c arg IH]; intros out Htail; simpl.
  - by rewrite Htail.
  - destruct (Ascii.eqb c quote) eqn:Hc; simpl.
    + apply Ascii.eqb_eq in Hc as ->. by rewrite (IH _ Htail).
    + rewrite Hc. by rewrite (IH _ Htail).
Qed.

(** X17: [escapeShellArg] is read back by the shell as the one word it was
    given: the result is made of quoted and escaped characters only, and
    unquoting it gives the argument, whatever characters that contains. *)
Theorem escapeShellArg_round_trip arg :
  sh_read false (escapeShellArg arg) = Some arg.
Proof.
  unfold escapeShellArg. simpl.
  rewrite (sh_read_inside arg EmptyString EmptyString eq_refl).
  f_equal. clear. induction arg as [|c arg IH]; [done|].
  change (String c (arg +:+ "") = String c arg). by rewrite IH.
Qed.

Example escapeShellArg_example : escapeShellArg "it's" = "'it'\''s'".
Proof. reflexivity. Qed.

(** ** The session tools *)

(** X18: the create_session tool contacts the server only when the probe
    of [/health] printed 200: otherwise it returns the "Failed to start"
    error, starts nothing and sends no request. *)
Theorem create_session_needs_running_server cfg probe meta h st :
  isBrowserServerRunning probe = false →
  call_session_tool (create_session cfg probe meta h) st
  = (Ok (SessionToolError ("Error: " +:+ failed_to_start)), st).
Proof.
  intros Hprobe. unfold call_session_tool, create_session, ensureBrowserServer.
  rewrite Hprobe. reflexivity.
Qed.

Lemma create_session_needs_running_server_witness :
  call_session_tool (create_session CONFIG (Ok "000") None (delivered quiet))
    two_agents
  = (Ok (SessionToolError ("Error: " +:+ failed_to_start)), two_agents).
Proof.
  apply (create_session_needs_running_server CONFIG (Ok "000") None
           (delivered quiet) two_agents).
  vm_compute. reflexivity.
Defined.

(** X19: when the server runs and answers, the create_session tool never
    reports an error: with room and a browser it returns the new id, which
    is then in the registry; with the registry full of fresh sessions it
    returns [success: false] with no id and the message "Session created:
    undefined. ...". *)
Theorem create_session_result cfg E meta st :
  let tool := call_session_tool
                (create_session cfg (Ok "200") meta (delivered E)) in
  (∀ b, size (sessions st) < MAX_SESSIONS cfg → launch E = Ok b →
     ∃ st',
       tool st
       = (Ok (CreateSessionResult (Some true) (Some ("ses_" +:+ uuid E))
                ("Session created: " +:+ ("ses_" +:+ uuid E)
                 +:+ ". Use this ID in subsequent calls to maintain state.")),
          st')
       ∧ sessions st' !! ("ses_" +:+ uuid E)
         = Some (fresh_record E b (default [] meta)))
  ∧ (MAX_SESSIONS cfg ≤ size (sessions st) →
     (∀ k session, sessions st !! k = Some session →
        (clock_sweep E - lastAccessed session ≤ SESSION_TIMEOUT_MS cfg)%Z) →
     tool st
     = (Ok (CreateSessionResult (Some false) None
              ("Session created: undefined"
               +:+ ". Use this ID in subsequent calls to maintain state.")),
        st)).
Proof.
  cbv zeta. unfold call_session_tool, create_session, ensureBrowserServer.
  change (isBrowserServerRunning (Ok "200")) with true. cbn [negb].
  unfold try_catch, bind. rewrite browserServerRequest_delivered.
  unfold reply. simpl. unfold route_create. rewrite try_catch_fail_with.
  unfold bind. split.
  - intros b Hroom Hlaunch. rewrite createSession_admitted by done.
    rewrite Hlaunch. simpl. eexists. split; [reflexivity|].
    simpl. apply lookup_insert_eq.
  - intros Hfull Hfresh. rewrite createSession_at_capacity by done. cbv zeta.
    rewrite sweep_nothing_expired by done. simpl.
    case_decide; [reflexivity|lia].
Qed.

Lemma create_session_result_witness :
  call_session_tool
    (create_session CONFIG (Ok "200") None (delivered (at_time 1000000 "new" 9)))
    full_all_fresh
  = (Ok (CreateSessionResult (Some false) None
           "Session created: undefined. Use this ID in subsequent calls to maintain state."),
     full_all_fresh).
Proof.
  destruct (create_session_result CONFIG (at_time 1000000 "new" 9) None
              full_all_fresh) as [_ Hfull].
  apply Hfull; [vm_compute; lia|].
  apply (bool_decide_unpack
           (map_Forall (fun _ session =>
              (1000000 - lastAccessed session ≤ 300000)%Z)
              (sessions full_all_fresh))).
  vm_compute. exact I.
Defined.

(** X20: called with a plain id and with its request answered, the
    close_session tool leaves the named session out of the registry and
    every other record as it was; [success] tells whether the session was
    there, and the message says "closed successfully" in both cases. *)
Theorem close_session_result cfg E sessionId st :
  plain_id (template sessionId) = true →
  ∃ st',
    call_session_tool (close_session cfg sessionId (delivered E)) st
    = (Ok (CloseSessionResult
             (Some (bool_decide (is_Some (sessions st !! template sessionId))))
             ("Session " +:+ template sessionId +:+ " closed successfully")),
       st')
    ∧ sessions st' = delete (template sessionId) (sessions st).
Proof.
  intros _. unfold call_session_tool, close_session, try_catch, bind.
  rewrite browserServerRequest_delivered. unfold reply. simpl.
  unfold route_delete. rewrite try_catch_fail_with. unfold bind.
  destruct (sessions st !! template sessionId) as [session|] eqn:Hs.
  - rewrite (destroySession_live _ _ _ _ Hs). simpl.
    eexists. split; reflexivity.
  - rewrite (destroySession_absent _ _ _ Hs). simpl.
    eexists. split; [reflexivity|by rewrite delete_id].
Qed.

Lemma close_session_result_witness :
  ∃ st',
    call_session_tool (close_session CONFIG (Some "ses_a") (delivered quiet))
      two_agents
    = (Ok (CloseSessionResult (Some true) "Session ses_a closed successfully"),
       st')
    ∧ sessions st' !! "ses_a" = None
    ∧ is_Some (sessions st' !! "ses_b").
Proof.
  destruct (close_session_result CONFIG quiet (Some "ses_a") two_agents)
    as (st' & Hrun & Hst); [reflexivity|].
  exists st'. split; [exact Hrun|]. rewrite Hst. split.
  - apply lookup_delete_eq.
  - rewrite lookup_delete_ne by done. vm_compute. eauto.
Defined.

(** ** Local urls *)

Example maybeConvertToFileUrl_examples :
  let pwd := Ok ("/data/home/site" +:+ newline) in
  maybeConvertToFileUrl pwd join_with_slash "http://localhost:8080/"
  = "file:///data/home/site/index.html"
  ∧ maybeConvertToFileUrl pwd join_with_slash
      "https://127.0.0.1:3000/docs/a.html?x=1"
    = "file:///data/home/site/docs/a.html?x=1"
  ∧ maybeConvertToFileUrl pwd join_with_slash "http://localhost:8080/../etc/passwd"
    = "http://localhost:8080/../etc/passwd"
  ∧ maybeConvertToFileUrl pwd join_with_slash "https://example.com/"
    = "https://example.com/"
  ∧ maybeConvertToFileUrl pwd join_with_slash "http://localhost/"
    = "http://localhost/".
Proof. vm_compute. done. Qed.

Lemma strip_prefix_Some p s r : strip_prefix p s = Some r → s = p +:+ r.
Proof.
  revert s. induction p as [|a p IH]; intros [|b s]; simpl; try done.
  - intros [= <-]. reflexivity.
  - intros [= <-]. reflexivity.
  - destruct (Ascii.eqb a b) eqn:Hab; [|done].
    apply Ascii.eqb_eq in Hab as ->. intros ->%IH. reflexivity.
Qed.

Lemma match_localhost_Some url port group3 :
  match_localhost url = Some (port, group3) →
  ∃ scheme host tail,
    url = scheme +:+ host +:+ ":" +:+ tail
    ∧ (scheme = "http://" ∨ scheme = "https://")
    ∧ (host = "localhost" ∨ host = "127.0.0.1").
Proof.
  unfold match_localhost.
  destruct (strip_prefix "http" url) as [s1|] eqn:H1; [|done].
  apply strip_prefix_Some in H1 as ->.
  destruct (strip_prefix "s://" s1) as [s2|] eqn:H2.
  - apply strip_prefix_Some in H2 as ->.
    destruct (strip_prefix "localhost" s2) as [s3|] eqn:H3.
    + apply strip_prefix_Some in H3 as ->.
      destruct (strip_prefix ":" s3) as [s4|] eqn:H4; [|done].
      apply strip_prefix_Some in H4 as ->. intros _.
      exists "https://", "localhost", s4. auto.
    + destruct (strip_prefix "127.0.0.1" s2) as [s3|] eqn:H3'; [|done].
      apply strip_prefix_Some in H3' as ->.
      destruct (strip_prefix ":" s3) as [s4|] eqn:H4; [|done].
      apply strip_prefix_Some in H4 as ->. intros _.
      exists "https://", "127.0.0.1", s4. auto.
  - destruct (strip_prefix "://" s1) as [s2|] eqn:H2'; [|done].
    apply strip_prefix_Some in H2' as ->.
    destruct (strip_prefix "localhost" s2) as [s3|] eqn:H3.
    + apply strip_prefix_Some in H3 as ->.
      destruct (strip_prefix ":" s3) as [s4|] eqn:H4; [|done].
      apply strip_prefix_Some in H4 as ->. intros _.
      exists "http://", "localhost", s4. auto.
    + destruct (strip_prefix "127.0.0.1" s2) as [s3|] eqn:H3'; [|done].
      apply strip_prefix_Some in H3' as ->.
      destruct (strip_prefix ":" s3) as [s4|] eqn:H4; [|done].
      apply strip_prefix_Some in H4 as ->. intros _.
      exists "http://", "127.0.0.1", s4. auto.
Qed.

Lemma includes_dotdot_drop_first path :
  includes_dotdot path = false → includes_dotdot (drop_first path) = false.
Proof.
  destruct path as [|a [|b rest]]; simpl; try done.
  by destruct (Ascii.eqb a dot && Ascii.eqb b dot).
Qed.

(** X21: [maybeConvertToFileUrl] never fails and changes a url only when
    it is an http or https url of [localhost] or [127.0.0.1] with a port
    and the working directory can be read; what it then returns is a
    [file://] url of [join] applied to the trimmed working directory and a
    relative path that contains no [..]: a path with [..] is never
    converted. *)
Theorem converted_urls_are_local pwd join url :
  maybeConvertToFileUrl pwd join url = url
  ∨ ∃ out rel query scheme host tail,
      pwd = Ok out
      ∧ url = scheme +:+ host +:+ ":" +:+ tail
      ∧ (scheme = "http://" ∨ scheme = "https://")
      ∧ (host = "localhost" ∨ host = "127.0.0.1")
      ∧ includes_dotdot rel = false
      ∧ maybeConvertToFileUrl pwd join url = file_url (join (trim out) rel) query.
Proof.
  unfold maybeConvertToFileUrl.
  destruct (match_localhost url) as [[port group3]|] eqn:Hmatch; [|by left].
  destruct (match_localhost_Some _ _ _ Hmatch)
    as (scheme & host & tail & Hurl & Hscheme & Hhost).
  destruct pwd as [out|msg]; [|by left]. cbv zeta.
  case_bool_decide.
  - right. exists out, "index.html", (split_path_query (default "/" group3)).2,
      scheme, host, tail. split_and!; done.
  - destruct (includes_dotdot (split_path_query (default "/" group3)).1)
      eqn:Hdots; simpl; [by left|].
    right. exists out, (drop_first (split_path_query (default "/" group3)).1),
      (split_path_query (default "/" group3)).2, scheme, host, tail.
    split_and!; try done. by apply includes_dotdot_drop_first.
Qed.

Lemma match_localhost_file_url filePath query :
  match_localhost (file_url filePath query) = None.
Proof. unfold file_url. by destruct (truthy query). Qed.

(** X22: converting twice is converting once: a converted url is a
    [file://] url, which the pattern does not match. *)
Theorem maybeConvertToFileUrl_idempotent pwd join url :
  maybeConvertToFileUrl pwd join (maybeConvertToFileUrl pwd join url)
  = maybeConvertToFileUrl pwd join url.
Proof.
  assert (∀ filePath query,
            maybeConvertToFileUrl pwd join (file_url filePath query)
            = file_url filePath query) as Hfile.
  { intros. unfold maybeConvertToFileUrl at 1.
    by rewrite match_localhost_file_url. }
  unfold maybeConvertToFileUrl at 2 3.
  destruct (match_localhost url) as [[port group3]|] eqn:Hmatch.
  - destruct pwd as [out|msg].
    + cbv zeta. case_bool_decide; [apply Hfile|].
      destruct (includes_dotdot _) eqn:Hdots; simpl; [|apply Hfile].
      unfold maybeConvertToFileUrl. rewrite Hmatch. cbv zeta.
      rewrite bool_decide_false by done. by rewrite Hdots.
    + unfold maybeConvertToFileUrl. by rewrite Hmatch.
  - unfold maybeConvertToFileUrl. by rewrite Hmatch.
Qed.

Lemma length_expired_ids cfg now (m : gmap string SessionData) :
  length (expired_ids cfg now m) = size (filter (is_expired cfg now) m).
Proof.
  unfold expired_ids. rewrite length_fmap, map_filter_alt.
  symmetry. apply map_size_list_to_map.
  eapply sublist_NoDup; [apply (NoDup_fst_map_to_list m)|].
  apply fmap_sublist, sublist_filter.
Qed.

(** X23: the number a sweep returns, which the timer logs as "Removed n
    expired session(s)", is the number of sessions that left the registry:
    the size before is that number plus the size after. *)
Theorem sweep_counts_what_it_removes cfg E st :
  ∃ n st',
    cleanupExpiredSessions cfg E st = (Ok n, st')
    ∧ size (sessions st) = n + size (sessions st')
    ∧ length (deleted_keys (drop (length (trace st)) (trace st'))) = n.
Proof.
  pose proof (cleanupExpiredSessions_run cfg E st) as Hrun. cbv zeta in Hrun.
  eexists _, _. split; [exact Hrun|]. simpl. split.
  - rewrite length_expired_ids.
    rewrite <- (map_filter_union_complement (is_expired cfg (clock_sweep E))
                  (sessions st)) at 1.
    apply map_size_disj_union, map_disjoint_filter_complement.
  - rewrite drop_app_length. rewrite deleted_keys_expire_events; [done|..].
    + apply expired_ids_NoDup.
    + apply Forall_forall. intros k [session [Hk _]]%elem_of_expired_ids.
      by exists session.
Qed.

(** ** The sweep overtaken by a request *)

Lemma destroySession_cut E k session st :
  sessions st !! k = Some session →
  destroySession E k st
  = (destroySession_begin E session ;; destroySession_resume E k session) st.
Proof.
  intros Hs. unfold destroySession, destroySession_begin, destroySession_resume.
  munfold. simpl. rewrite Hs. rewrite !close_pages_run. simpl.
  by destruct (browser_close E (browser session)) as [[]|msg].
Qed.

(** The timer callback, cut at the await: when nothing runs in between it
    is [cleanup_tick]. *)
Lemma cleanup_tick_cut cfg E k rest session st :
  expired_ids cfg (clock_sweep E) (sessions st) = k :: rest →
  sessions st !! k = Some session →
  cleanup_tick cfg E st
  = (sweep_to_await E (clock_sweep E) k session ;;
     sweep_from_await E (clock_sweep E) k session rest (S (length rest))) st.
Proof.
  intros Hids Hs.
  unfold cleanup_tick, cleanupExpiredSessions, sweep_to_await, sweep_from_await,
    destroySession_begin, destroySession_resume.
  unfold bind at 1 2, sessions_entries at 1.
  fold (expired_ids cfg (clock_sweep E) (sessions st)). rewrite Hids.
  cbn [destroy_each length]. unfold destroySession.
  do 3 (munfold; simpl; rewrite ?Hs, ?close_pages_run).
  destruct (browser_close E (browser session)) as [[]|msg]; simpl.
  - match goal with
    | |- context [destroy_each E (clock_sweep E) rest ?s] =>
        destruct (destroy_each E (clock_sweep E) rest s) as [[[]|m] st3]
    end; done.
  - match goal with
    | |- context [destroy_each E (clock_sweep E) rest ?s] =>
        destruct (destroy_each E (clock_sweep E) rest s) as [[[]|m] st3]
    end; done.
Qed.

Lemma route_delete_sessions E id st :
  ∃ resp st',
    route_delete E id st = (Ok resp, st')
    ∧ sessions st' = delete id (sessions st).
Proof.
  unfold route_delete. rewrite try_catch_fail_with. unfold bind.
  destruct (sessions st !! id) as [session|] eqn:Hs.
  - rewrite (destroySession_live _ _ _ _ Hs). simpl. eexists _, _. by split.
  - rewrite (destroySession_absent _ _ _ Hs). simpl. eexists _, _.
    split; [reflexivity|]. by rewrite delete_id.
Qed.

Lemma sweep_to_await_run E now k session st :
  ∃ tr, sweep_to_await E now k session st
        = (Ok tt, {| sessions := sessions st; trace := tr |}).
Proof.
  unfold sweep_to_await, destroySession_begin. munfold. simpl.
  rewrite close_pages_run. simpl. eexists. reflexivity.
Qed.

Lemma destroySession_resume_run E k session st :
  ∃ tr, destroySession_resume E k session st
        = (Ok true, {| sessions := delete k (sessions st); trace := tr |}).
Proof.
  unfold destroySession_resume. munfold.
  destruct (browser_close E (browser session)) as [[]|msg]; simpl;
    eexists; reflexivity.
Qed.

Lemma destroy_each_gone E now k rest st :
  sessions st !! k = None →
  destroy_each E now (k :: rest) st = (Throw undefined_lastAccessed, st).
Proof. intros Hk. simpl. munfold. by rewrite Hk. Qed.

(** X25: the timer callback can reject.  The sweep has collected the
    expired sessions [k1], [k2] and [rest], in whatever order, and waits
    for the browser of [k1] to close; meanwhile a [DELETE] of [k2] is
    handled.  When the sweep goes on, the log line of its next turn reads
    [lastAccessed] of a session that is gone: the loop throws, the callback
    of [setInterval] has nothing that catches it, and the sessions
    collected after [k2] stay in the registry. *)
Theorem sweep_rejects_when_overtaken E E' now k1 k2 rest s1 st :
  NoDup (k1 :: k2 :: rest) →
  sessions st !! k1 = Some s1 →
  (∀ k, k ∈ rest → is_Some (sessions st !! k)) →
  ∃ st',
    (sweep_to_await E now k1 s1 ;;
     route_delete E' k2 ;;
     sweep_from_await E now k1 s1 (k2 :: rest) (S (S (length rest)))) st
    = (Throw undefined_lastAccessed, st')
    ∧ sessions st' = delete k1 (delete k2 (sessions st))
    ∧ ∀ k, k ∈ rest → is_Some (sessions st' !! k).
Proof.
  intros Hnd Hs1 Hrest.
  destruct (sweep_to_await_run E now k1 s1 st) as [tr1 Hrun1].
  destruct (route_delete_sessions E' k2
              {| sessions := sessions st; trace := tr1 |})
    as (resp & st2 & Hrun2 & Hst2).
  destruct (destroySession_resume_run E k1 s1 st2) as [tr3 Hrun3].
  apply NoDup_cons in Hnd as [Hk1 Hnd]. apply NoDup_cons in Hnd as [Hk2 _].
  eexists. split; [|split].
  - unfold bind at 1. rewrite Hrun1. unfold bind at 1. rewrite Hrun2.
    unfold sweep_from_await. unfold bind at 1. rewrite Hrun3.
    unfold bind at 1. rewrite destroy_each_gone; [reflexivity|].
    simpl. rewrite Hst2. simpl.
    rewrite lookup_delete_ne by (intros ->; apply Hk1; left).
    apply lookup_delete_eq.
  - simpl. by rewrite Hst2.
  - intros k Hk. simpl. rewrite Hst2. simpl.
    rewrite !lookup_delete_ne; [by apply Hrest| |].
    + intros ->. done.
    + intros ->. apply Hk1. by right.
Qed.

Lemma sweep_rejects_when_overtaken_witness :
  ∃ st',
    (sweep_to_await quiet 1000000 "ses_a" (session_at "ses_a" 1 [10] 0) ;;
     route_delete quiet "ses_b" ;;
     sweep_from_await quiet 1000000 "ses_a" (session_at "ses_a" 1 [10] 0)
       ["ses_b"; "ses_c"] 3) three_idle
    = (Throw undefined_lastAccessed, st')
    ∧ is_Some (sessions st' !! "ses_c").
Proof.
  destruct (sweep_rejects_when_overtaken quiet quiet 1000000 "ses_a" "ses_b"
              ["ses_c"] (session_at "ses_a" 1 [10] 0) three_idle)
    as (st' & Hrun & _ & Hrest).
  - apply (bool_decide_unpack _). vm_compute. exact I.
  - vm_compute. reflexivity.
  - intros k ->%list_elem_of_singleton. vm_compute. eauto.
  - exists st'. split; [exact Hrun|]. apply Hrest. left.
Defined.
